(** * Solo-staking benchmark: metric framework, collectors and orchestration

    A shallow embedding of the Go packages [metric], [consensus], [execution]
    and [benchmark], followed by the properties of the design document that
    were checked against them.

    Conventions of the embedding.
    - Go integers ([time.Duration] is an [int64] of nanoseconds, [uint32]
      peer counts) are [Z]; a narrowing conversion writes its wrap-around out.
    - A Go [map[string]T] is a [gmap string T]; indexing a map with an absent
      key yields the zero value of [T], which [zeroIndex] models.
    - A Go slice is a [list]; [append] adds at the end.
    - A method with a pointer receiver is a function from the receiver's
      state to its new state.  A run-time panic is the [Panic] outcome.
    - Whatever a collector obtains from the network or the clock enters the
      model as an explicit input of the probe (an outcome record). *)

From Stdlib Require Import ZArith String Ascii Lia.
From stdpp Require Import base gmap strings list sorting pretty.

Local Open Scope Z_scope.

(** ** Outcomes of Go calls that may panic *)

Inductive outcome (A : Type) : Type :=
| Returns (a : A)
| Panic (msg : string).
Arguments Returns {A} a.
Arguments Panic {A} msg.

Global Instance outcome_ret : MRet outcome := λ A a, Returns a.
Global Instance outcome_bind : MBind outcome := λ A B k o,
  match o with
  | Returns a => k a
  | Panic m => Panic m
  end.

(** Indexing a Go map: the zero value when the key is absent. *)
Definition zeroIndex {K} `{Countable K} {T} (zero : T) (m : gmap K T) (k : K) : T :=
  default zero (m !! k).

(** [time.Second] in nanoseconds, the unit of [time.Duration]. *)
Definition time_Second : Z := 1000000000.

(** ** What a probe exchanges with the outside world *)

(** The HTTP status code 200. *)
Definition http_StatusOK : Z := 200.

(** An HTTP response as far as the collectors look at it: the status code
    and the outcome of JSON-decoding the body into the one string field the
    caller reads ([None] when decoding fails). *)
Record Response := mkResponse {
  StatusCode : Z;
  decoded : option string;
}.

(** A network request a collector issued, with the deadline it was given
    ([None]: the request carries no timeout). *)
Record Probe := mkProbe {
  target : string;
  timeout_of : option Z;
}.

(** The deadline of a request made through [http.Client{Timeout: d}]: a
    timeout that is not positive means no timeout. *)
Definition http_Client_Timeout (d : Z) : option Z :=
  if 0 <? d then Some d else None.

(** The deadline of [net.DialTimeout(network, address, d)]: a zero timeout
    means no timeout. *)
Definition net_DialTimeout (d : Z) : option Z :=
  if d =? 0 then None else Some d.

(** errors.Join(a, b).Error(): the messages, one per line. *)
Definition errors_Join (a b : string) : string :=
  a +:+ String (ascii_of_nat 10) b.

(** *** strconv *)

Definition digitVal (c : ascii) : option Z :=
  let n := Z.of_nat (nat_of_ascii c) in
  if (48 <=? n) && (n <=? 57) then Some (n - 48)
  else if (97 <=? n) && (n <=? 122) then Some (n - 97 + 10)
  else if (65 <=? n) && (n <=? 90) then Some (n - 65 + 10)
  else None.

(** strconv.ParseUint(s, base, 64) for an explicit base: no prefix and no
    underscores are accepted, and a value of 2^64 or more is out of range. *)
Fixpoint parseUintFrom (base : Z) (acc : Z) (s : string) : option Z :=
  match s with
  | EmptyString => Some acc
  | String c rest =>
      match digitVal c with
      | Some d =>
          if d <? base then
            let acc' := acc * base + d in
            if acc' <? 2 ^ 64 then parseUintFrom base acc' rest else None
          else None
      | None => None
      end
  end.

Definition strconv_ParseUint (s : string) (base : Z) : option Z :=
  match s with
  | EmptyString => None
  | _ => parseUintFrom base 0 s
  end.

(** strconv.ParseInt(s, base, 64): an optional sign, then digits; [None]
    stands for a non-nil error (syntax or range). *)
Definition strconv_ParseInt (s : string) (base : Z) : option Z :=
  match s with
  | EmptyString => None
  | String c rest =>
      let neg := bool_decide (c = "-"%char) in
      let body := if bool_decide (c = "+"%char) || neg then rest else s in
      match strconv_ParseUint body base with
      | Some un =>
          if negb neg && (2 ^ 63 <=? un) then None
          else if neg && (2 ^ 63 <? un) then None
          else Some (if neg then - un else un)
      | None => None
      end
  end.

(** strconv.Atoi on a 64-bit platform. *)
Definition strconv_Atoi (s : string) : option Z := strconv_ParseInt s 10.

(** The conversion uint32(v) of a signed 64-bit integer. *)
Definition uint32 (v : Z) : Z := v mod 2 ^ 32.

(** *** float64 *)

(** The [float64] nearest to n * 2^e for a natural number n, as a
    significand of at most 53 bits and an exponent: round to nearest, ties
    to even.  (The values rounded here lie between 2^-2 and 2^65, far from
    the ends of the exponent range.) *)
Definition float64_round (n e : Z) : Z * Z :=
  let bits := Z.log2 n + 1 in
  if bits <=? 53 then (n, e)
  else
    let s := bits - 53 in
    let q := n / 2 ^ s in
    let r := n mod 2 ^ s in
    let half := 2 ^ (s - 1) in
    let q' := if r <? half then q
              else if half <? r then q + 1
              else if Z.even q then q else q + 1 in
    (q', e + s).

(** s[2:] on a Go string: a panic when the string is shorter than two bytes. *)
Definition sliceFrom2 (s : string) : outcome string :=
  match s with
  | String _ (String _ rest) => Returns rest
  | _ => Panic "slice bounds out of range"
  end.

(** ** Package metric *)

Module metric.

Inductive Group := ConsensusGroup | ExecutionGroup | InfrastructureGroup.

Inductive HealthStatus := Healthy | Unhealthy.

Inductive SeverityLevel := SeverityLow | SeverityMedium | SeverityHigh.

Inductive Operator :=
| OperatorEqual
| OperatorLessThan
| OperatorLessThanOrEqual
| OperatorGreaterThan
| OperatorGreaterThanOrEqual.

Global Instance Group_eq_dec : EqDecision Group.
Proof. solve_decision. Defined.
Global Instance HealthStatus_eq_dec : EqDecision HealthStatus.
Proof. solve_decision. Defined.
Global Instance SeverityLevel_eq_dec : EqDecision SeverityLevel.
Proof. solve_decision. Defined.
Global Instance Group_countable : Countable Group.
Proof.
  refine (inj_countable'
    (λ g, match g with
          | ConsensusGroup => 0%nat
          | ExecutionGroup => 1%nat
          | InfrastructureGroup => 2%nat
          end)
    (λ n, match n with
          | 0%nat => ConsensusGroup
          | 1%nat => ExecutionGroup
          | _ => InfrastructureGroup
          end) _).
  by intros [].
Defined.

(** The order of a value type, as Go's [cmp.Ordered] constraint gives it. *)
Class Ordered (T : Type) := compareT : T → T → comparison.
Global Instance Ordered_Z : Ordered Z := Z.compare.
Global Instance Ordered_string : Ordered string := String.compare.

Record HealthCondition (T : Type) := mkHealthCondition {
  Name : string;
  Threshold : T;
  Operator_ : Operator;
  Severity : SeverityLevel;
}.
Arguments mkHealthCondition {T}.
Arguments Name {T}.
Arguments Threshold {T}.
Arguments Operator_ {T}.
Arguments Severity {T}.

Record DataPoint (T : Type) := mkDataPoint {
  Timestamp : Z;
  Values : gmap string T;
}.
Arguments mkDataPoint {T}.
Arguments Timestamp {T}.
Arguments Values {T}.

Record Base (T : Type) := mkBase {
  BaseName : string;
  DataPoints : list (DataPoint T);
  HealthConditions : list (HealthCondition T);
}.
Arguments mkBase {T}.
Arguments BaseName {T}.
Arguments DataPoints {T}.
Arguments HealthConditions {T}.

(** Modelled from the spec: [Base.AddDataPoint] (package
    internal/platform/metric is not among the sources).  It appends a
    DataPoint carrying the current time; it never fails. *)
Definition AddDataPoint {T} (now : Z) (values : gmap string T) (b : Base T) : Base T :=
  mkBase (BaseName b) (DataPoints b ++ [mkDataPoint now values]) (HealthConditions b).

(** *** Percentile calculator *)

(** ceil(p/100 × n) − 1, clamped to [0, n−1]. *)
Definition percentileIndex (p : Z) (n : nat) : nat :=
  Z.to_nat (Z.max 0 (Z.min (Z.of_nat n - 1) ((p * Z.of_nat n + 99) / 100 - 1))).

Definition percentileOf (sorted : list Z) (p : Z) : Z :=
  default 0 (sorted !! percentileIndex p (length sorted)).

(** Modelled from the spec: [CalculatePercentiles] (package
    internal/platform/metric is not among the sources).  A copy of [values]
    is sorted ascending; each requested percentile is read off by nearest
    rank; an empty input yields the zero value for every request. *)
Definition CalculatePercentiles (values : list Z) (percentiles : list Z) : gmap Z Z :=
  let sorted := merge_sort Z.le values in
  foldl (fun m p => <[p := percentileOf sorted p]> m) ∅ percentiles.

(** *** Health evaluator *)

Definition HealthCondition_Evaluate {T} `{Ordered T} (c : HealthCondition T) (v : T) : bool :=
  match Operator_ c, compareT v (Threshold c) with
  | OperatorEqual, Eq => true
  | OperatorLessThan, Lt => true
  | OperatorLessThanOrEqual, (Lt | Eq) => true
  | OperatorGreaterThan, Gt => true
  | OperatorGreaterThanOrEqual, (Gt | Eq) => true
  | _, _ => false
  end.

(** One condition applied to the most recent values: a measurement that
    already has a severity keeps it (the first match wins); an absent
    measurement is "no data" and contributes nothing. *)
Definition applyCondition {T} `{Ordered T} (latest : gmap string T)
    (sev : gmap string SeverityLevel) (c : HealthCondition T) : gmap string SeverityLevel :=
  match sev !! Name c, latest !! Name c with
  | None, Some v => if HealthCondition_Evaluate c v then <[Name c := Severity c]> sev else sev
  | _, _ => sev
  end.

Definition anyHigh (sev : gmap string SeverityLevel) : bool :=
  bool_decide (map_Exists (λ _ s, s = SeverityHigh) sev).

(** Modelled from the spec: the health evaluator [Evaluate] (package
    internal/platform/metric is not among the sources).  Conditions are
    applied in declared order to the most recent DataPoint; the overall
    status is Unhealthy iff some matched severity is High. *)
Definition evaluateConditions {T} `{Ordered T} (latest : gmap string T)
    (conds : list (HealthCondition T)) : HealthStatus * gmap string SeverityLevel :=
  let sev := foldl (applyCondition latest) ∅ conds in
  (if anyHigh sev then Unhealthy else Healthy, sev).

Definition Evaluate {T} `{Ordered T} (b : Base T) : HealthStatus * gmap string SeverityLevel :=
  evaluateConditions (from_option Values ∅ (last (DataPoints b))) (HealthConditions b).

End metric.

(** The helpers of package metric that render values, which are not among
    the sources: [FormatPercentiles] at the two value types it is called
    with.  The collectors are stated for any such renderer. *)
Class Formatter := {
  FormatPercentiles_Duration : Z → Z → Z → Z → Z → string;
  FormatPercentiles_uint32 : Z → Z → Z → Z → Z → string;
}.

(** The percentiles every collector asks for. *)
Definition requested : list Z := [0; 10; 50; 90; 100].

(** ** Package execution *)

Module execution.

(** *** execution.PeerMetric *)

Module PeerMetric.

Definition PeerCountMeasurement : string := "Count".

Definition measuringErr : string := "UNABLE_TO_MEASURE".

Definition emptyResultErr : string :=
  "peer count RPC response was empty. Most likely net_peerCount RPC method is not supported".

Record t := mk {
  Base : metric.Base Z;
  url : string;
  interval : Z;
  measuringErrors : gmap string string;
}.

Definition NewPeerMetric (url name : string) (interval : Z)
    (healthCondition : list (metric.HealthCondition Z)) : t :=
  mk (metric.mkBase name [] healthCondition) url interval ∅.

(** What one call of [measure] meets: whether building the request fails,
    the outcome of [http.DefaultClient.Do] ([None]: an error), and the
    clock reading taken by [AddDataPoint]. *)
Record Tick := mkTick {
  newRequestErr : bool;
  doResult : option Response;
  now : Z;
}.

Definition writeMetric (now : Z) (value : Z) (p : t) : t :=
  mk (metric.AddDataPoint now {[ PeerCountMeasurement := uint32 value ]} (Base p))
     (url p) (interval p) (measuringErrors p).

(** [PeerMetric.measure].  Marshalling the fixed request cannot fail.  The
    request header is set before the error of [NewRequestWithContext] is
    looked at, so a failed construction dereferences a nil request. *)
Definition measure (k : Tick) (p : t) : outcome (t * list Probe) :=
  if newRequestErr k then Panic "nil pointer dereference"
  else
    let probes := [mkProbe (url p) (Some (5 * time_Second))] in
    match doResult k with
    | None => Returns (writeMetric (now k) 0 p, probes)
    | Some res =>
        if negb (StatusCode res =? http_StatusOK) then
          Returns (writeMetric (now k) 0 p, probes)
        else
          match decoded res with
          | None => Returns (writeMetric (now k) 0 p, probes)
          | Some peerCountHex =>
              if bool_decide (peerCountHex = ""%string) then
                let p' := writeMetric (now k) 0 p in
                Returns (mk (Base p') (url p') (interval p')
                           (<[PeerCountMeasurement := errors_Join measuringErr emptyResultErr]>
                              (measuringErrors p')),
                         probes)
              else
                digits ← sliceFrom2 peerCountHex;
                match strconv_ParseInt digits 16 with
                | None => Returns (writeMetric (now k) 0 p, probes)
                | Some peerCount => Returns (writeMetric (now k) peerCount p, probes)
                end
          end
    end.

(** The select loop of [Measure] over the ticks that fire before the
    context is cancelled; a panic ends the run. *)
Fixpoint loop (ticks : list Tick) (p : t) : outcome (t * list Probe) :=
  match ticks with
  | [] => Returns (p, [])
  | k :: rest =>
      '(p1, probes1) ← measure k p;
      '(p2, probes2) ← loop rest p1;
      Returns (p2, probes1 ++ probes2)
  end.

(** [PeerMetric.Measure]: [time.NewTicker] panics on a non-positive
    interval, before any tick fires; otherwise the loop runs. *)
Definition Measure (ticks : list Tick) (p : t) : outcome (t * list Probe) :=
  if interval p <=? 0 then Panic "non-positive interval for NewTicker"
  else loop ticks p.

(** [PeerMetric.AggregateResults].  [iter] is the order in which the range
    loop visits [measuringErrors]; Go leaves it unspecified, so it is any
    arrangement of the map's entries.  The loop returns in its first
    iteration. *)
Definition AggregateResults `{Formatter} (iter : list (string * string)) (p : t) : string :=
  match iter with
  | (_, err) :: _ => err
  | [] =>
      let values := (λ point, zeroIndex 0 (metric.Values point) PeerCountMeasurement)
                      <$> metric.DataPoints (Base p) in
      let percentiles := metric.CalculatePercentiles values requested in
      FormatPercentiles_uint32
        (zeroIndex 0 percentiles 0) (zeroIndex 0 percentiles 10)
        (zeroIndex 0 percentiles 50) (zeroIndex 0 percentiles 90)
        (zeroIndex 0 percentiles 100)
  end.

End PeerMetric.

(** *** execution.LatencyMetric *)

Module LatencyMetric.

Definition DurationMinMeasurement : string := "DurationMin".
Definition DurationP10Measurement : string := "DurationP10".
Definition DurationP50Measurement : string := "DurationP50".
Definition DurationP90Measurement : string := "DurationP90".
Definition DurationMaxMeasurement : string := "DurationMax".

Record t := mk {
  Base : metric.Base Z;
  host : string;
  interval : Z;
  timeout : Z;
  durations : list Z;
}.

(** time.Duration(float64(interval) * 0.75) on an [int64] interval: the
    conversion to [float64] rounds, the product with 0.75 = 3 * 2^-2 rounds
    again, and the conversion back truncates towards zero. *)
Definition threeQuarters (interval : Z) : Z :=
  let '(m, e) := float64_round (Z.abs interval) 0 in
  let '(m', e') := float64_round (m * 3) (e - 2) in
  Z.sgn interval * (if 0 <=? e' then m' * 2 ^ e' else m' / 2 ^ (- e')).

Definition NewLatencyMetric (host name : string) (interval : Z)
    (healthCondition : list (metric.HealthCondition Z)) : t :=
  mk (metric.mkBase name [] healthCondition) host interval (threeQuarters interval) [].

(** What one call of [measure] meets: the outcome of [net.DialTimeout]
    ([None]: an error; otherwise the time [time.Since(start)] reports) and
    the clock reading taken by [AddDataPoint]. *)
Record Tick := mkTick {
  dial : option Z;
  now : Z;
}.

Definition writeMetric (now : Z) (latency : Z) (l : t) : t :=
  let percentiles := metric.CalculatePercentiles (durations l) requested in
  mk (metric.AddDataPoint now
        (<[DurationMinMeasurement := zeroIndex 0 percentiles 0]>
         (<[DurationP10Measurement := zeroIndex 0 percentiles 10]>
          (<[DurationP50Measurement := zeroIndex 0 percentiles 50]>
           (<[DurationP90Measurement := zeroIndex 0 percentiles 90]>
            (<[DurationMaxMeasurement := zeroIndex 0 percentiles 100]> ∅)))))
        (Base l))
     (host l) (interval l) (timeout l) (durations l).

Definition measure (k : Tick) (l : t) : t * list Probe :=
  let probes := [mkProbe (host l) (net_DialTimeout (timeout l))] in
  match dial k with
  | None => (l, probes)
  | Some latency =>
      (writeMetric (now k) latency
         (mk (Base l) (host l) (interval l) (timeout l) (durations l ++ [latency])),
       probes)
  end.

(** The select loop of [Measure] over the ticks that fire before the
    context is cancelled. *)
Definition Measure (ticks : list Tick) (l : t) : t * list Probe :=
  foldl (λ '(l, probes) k, let '(l', ps) := measure k l in (l', probes ++ ps)) (l, []) ticks.

(** [LatencyMetric.AggregateResults]: the last DataPoint is indexed without
    looking at the length of the slice. *)
Definition AggregateResults `{Formatter} (l : t) : outcome string :=
  match last (metric.DataPoints (Base l)) with
  | None => Panic "index out of range [-1]"
  | Some point =>
      Returns (FormatPercentiles_Duration
                 (zeroIndex 0 (metric.Values point) DurationMinMeasurement)
                 (zeroIndex 0 (metric.Values point) DurationP10Measurement)
                 (zeroIndex 0 (metric.Values point) DurationP50Measurement)
                 (zeroIndex 0 (metric.Values point) DurationP90Measurement)
                 (zeroIndex 0 (metric.Values point) DurationMaxMeasurement))
  end.

End LatencyMetric.

End execution.

(** ** Package consensus *)

Module consensus.

(** *** consensus.ClientMetric *)

Module ClientMetric.

Definition VersionMeasurement : string := "Version".
Definition NodeHealthMeasurement : string := "NodeHealth".
Definition SyncStatusMeasurement : string := "SyncStatus".
Definition LatencyMeasurement : string := "Latency".

Record t := mk {
  Base : metric.Base string;
  url : string;
  measureInterval : Z;
}.

Definition NewClientMetric (url name : string)
    (healthCondition : list (metric.HealthCondition string)) (measureInterval : Z) : t :=
  mk (metric.mkBase name [] healthCondition) url measureInterval.

(** The outcome of one [http.Get] ([None]: an error) and the clock reading
    of the [AddDataPoint] that follows it. *)
Record Get := mkGet {
  result : option Response;
  now : Z;
}.

(** What one tick meets: the four requests, and for the latency request
    the milliseconds [time.Since] reports. *)
Record Tick := mkTick {
  health : Get;
  version : Get;
  syncing : Get;
  latency : Get;
  elapsedMs : Z;
}.

Definition add (now : Z) (name value : string) (c : t) : t :=
  mk (metric.AddDataPoint now {[ name := value ]} (Base c)) (url c) (measureInterval c).

Definition measureNodeHealth (g : Get) (c : t) : t * list Probe :=
  let probes := [mkProbe (url c +:+ "/eth/v1/node/health") None] in
  match result g with
  | Some res =>
      if StatusCode res =? http_StatusOK
      then (add (now g) NodeHealthMeasurement "Healthy" c, probes)
      else (add (now g) NodeHealthMeasurement "Unhealthy" c, probes)
  | None => (add (now g) NodeHealthMeasurement "Unhealthy" c, probes)
  end.

Definition measureNodeVersion (g : Get) (c : t) : t * list Probe :=
  let probes := [mkProbe (url c +:+ "/eth/v1/node/version") None] in
  match result g with
  | None => (add (now g) VersionMeasurement "" c, probes)
  | Some res =>
      if negb (StatusCode res =? http_StatusOK)
      then (add (now g) VersionMeasurement "" c, probes)
      else match decoded res with
           | None => (add (now g) VersionMeasurement "" c, probes)
           | Some v => (add (now g) VersionMeasurement v c, probes)
           end
  end.

Definition measureSyncStatus (g : Get) (c : t) : t * list Probe :=
  let probes := [mkProbe (url c +:+ "/eth/v1/node/syncing") None] in
  match result g with
  | Some res =>
      if StatusCode res =? http_StatusOK
      then (add (now g) SyncStatusMeasurement "Synced" c, probes)
      else (add (now g) SyncStatusMeasurement "Not Synced" c, probes)
  | None => (add (now g) SyncStatusMeasurement "Not Synced" c, probes)
  end.

Definition measureLatency (g : Get) (elapsedMs : Z) (c : t) : t * list Probe :=
  let probes := [mkProbe (url c +:+ "/eth/v1/node/health") None] in
  match result g with
  | None => (add (now g) LatencyMeasurement "Error" c, probes)
  | Some _ => (add (now g) LatencyMeasurement (pretty elapsedMs +:+ "ms") c, probes)
  end.

(** The [ticker.C] case of [Measure]: the four probes in turn. *)
Definition tick (k : Tick) (c : t) : t * list Probe :=
  let '(c1, ps1) := measureNodeHealth (health k) c in
  let '(c2, ps2) := measureNodeVersion (version k) c1 in
  let '(c3, ps3) := measureSyncStatus (syncing k) c2 in
  let '(c4, ps4) := measureLatency (latency k) (elapsedMs k) c3 in
  (c4, ps1 ++ ps2 ++ ps3 ++ ps4).

(** The select loop of [Measure] over the ticks that fire before the
    context is cancelled. *)
Definition Measure (ticks : list Tick) (c : t) : t * list Probe :=
  foldl (λ '(c, probes) k, let '(c', ps) := tick k c in (c', probes ++ ps)) (c, []) ticks.

(** The loop of [AggregateResults]: a measurement present in the point
    replaces what was seen before. *)
Definition latestOf (name : string) (points : list (metric.DataPoint string)) : string :=
  foldl (λ acc point, from_option id acc (metric.Values point !! name)) ""%string points.

Definition AggregateResults (c : t) : string :=
  let points := metric.DataPoints (Base c) in
  "Version: " +:+ latestOf VersionMeasurement points +:+
  ", Node Health: " +:+ latestOf NodeHealthMeasurement points +:+
  ", Sync Status: " +:+ latestOf SyncStatusMeasurement points +:+
  ", Latency: " +:+ latestOf LatencyMeasurement points.

End ClientMetric.

(** *** consensus.LatencyMetric *)

Module LatencyMetric.

Definition DurationMinMeasurement : string := "DurationMin".
Definition DurationP10Measurement : string := "DurationP10".
Definition DurationP50Measurement : string := "DurationP50".
Definition DurationP90Measurement : string := "DurationP90".
Definition DurationMaxMeasurement : string := "DurationMax".

Record t := mk {
  Base : metric.Base Z;
  url : string;
  interval : Z;
  timeout : Z;
  durations : list Z;
}.

Definition NewLatencyMetric (url name : string) (interval : Z)
    (healthCondition : list (metric.HealthCondition Z)) : t :=
  mk (metric.mkBase name [] healthCondition) url interval
     (execution.LatencyMetric.threeQuarters interval) [].

(** What one call of [measure] meets: the outcome of [client.Get] ([None]:
    an error; otherwise the time [time.Since(start)] reports) and the clock
    reading taken by [AddDataPoint]. *)
Record Tick := mkTick {
  get : option Z;
  now : Z;
}.

Definition writeMetric (now : Z) (latency : Z) (l : t) : t :=
  let percentiles := metric.CalculatePercentiles (durations l) requested in
  mk (metric.AddDataPoint now
        (<[DurationMinMeasurement := zeroIndex 0 percentiles 0]>
         (<[DurationP10Measurement := zeroIndex 0 percentiles 10]>
          (<[DurationP50Measurement := zeroIndex 0 percentiles 50]>
           (<[DurationP90Measurement := zeroIndex 0 percentiles 90]>
            (<[DurationMaxMeasurement := zeroIndex 0 percentiles 100]> ∅)))))
        (Base l))
     (url l) (interval l) (timeout l) (durations l).

Definition measure (k : Tick) (l : t) : t * list Probe :=
  let probes := [mkProbe (url l) (http_Client_Timeout (timeout l))] in
  match get k with
  | None => (l, probes)
  | Some latency =>
      (writeMetric (now k) latency
         (mk (Base l) (url l) (interval l) (timeout l) (durations l ++ [latency])),
       probes)
  end.

(** The select loop of [Measure] over the ticks that fire before the
    context is cancelled. *)
Definition Measure (ticks : list Tick) (l : t) : t * list Probe :=
  foldl (λ '(l, probes) k, let '(l', ps) := measure k l in (l', probes ++ ps)) (l, []) ticks.

(** [LatencyMetric.AggregateResults]: an empty store leaves the five
    values at zero. *)
Definition AggregateResults `{Formatter} (l : t) : string :=
  match last (metric.DataPoints (Base l)) with
  | None => FormatPercentiles_Duration 0 0 0 0 0
  | Some point =>
      FormatPercentiles_Duration
        (zeroIndex 0 (metric.Values point) DurationMinMeasurement)
        (zeroIndex 0 (metric.Values point) DurationP10Measurement)
        (zeroIndex 0 (metric.Values point) DurationP50Measurement)
        (zeroIndex 0 (metric.Values point) DurationP90Measurement)
        (zeroIndex 0 (metric.Values point) DurationMaxMeasurement)
  end.

End LatencyMetric.

(** *** consensus.PeerMetric *)

Module PeerMetric.

Definition PeerCountMeasurement : string := "PeerCount".

Record t := mk {
  Base : metric.Base Z;
  url : string;
  interval : Z;
}.

Definition NewPeerMetric (url name : string) (interval : Z)
    (healthCondition : list (metric.HealthCondition Z)) : t :=
  mk (metric.mkBase name [] healthCondition) url interval.

Record Tick := mkTick {
  newRequestErr : bool;
  doResult : option Response;
  now : Z;
}.

Definition add (now : Z) (value : Z) (p : t) : t :=
  mk (metric.AddDataPoint now {[ PeerCountMeasurement := value ]} (Base p)) (url p) (interval p).

Definition writeMetric (now : Z) (peerCount : Z) (p : t) : t :=
  add now (uint32 peerCount) p.

Definition measure (k : Tick) (p : t) : t * list Probe :=
  if newRequestErr k then (p, [])
  else
    let probes := [mkProbe (url p +:+ "/eth/v1/node/peer_count") (Some (5 * time_Second))] in
    match doResult k with
    | None => (add (now k) 0 p, probes)
    | Some res =>
        if negb (StatusCode res =? http_StatusOK) then (add (now k) 0 p, probes)
        else
          match decoded res with
          | None => (add (now k) 0 p, probes)
          | Some connected =>
              match strconv_Atoi connected with
              | None => (add (now k) 0 p, probes)
              | Some peerCount => (writeMetric (now k) peerCount p, probes)
              end
          end
    end.

(** The select loop of [Measure] over the ticks that fire before the
    context is cancelled. *)
Definition Measure (ticks : list Tick) (p : t) : t * list Probe :=
  foldl (λ '(p, probes) k, let '(p', ps) := measure k p in (p', probes ++ ps)) (p, []) ticks.

Definition AggregateResults `{Formatter} (p : t) : string :=
  let values := (λ point, zeroIndex 0 (metric.Values point) PeerCountMeasurement)
                  <$> metric.DataPoints (Base p) in
  let percentiles := metric.CalculatePercentiles values requested in
  FormatPercentiles_uint32
    (zeroIndex 0 percentiles 0) (zeroIndex 0 percentiles 10)
    (zeroIndex 0 percentiles 50) (zeroIndex 0 percentiles 90)
    (zeroIndex 0 percentiles 100).

End PeerMetric.

End consensus.

(** The orders a range loop over the Go map [m] may take. *)
Definition rangeOrder `{Countable K} {V} (m : gmap K V) (iter : list (K * V)) : Prop :=
  iter ≡ₚ map_to_list m.

(** ** Package report *)

Module report.

Record Record_ := mkRecord {
  GroupName : metric.Group;
  MetricName : string;
  Value : string;
  Health : metric.HealthStatus;
  Severity : gmap string metric.SeverityLevel;
}.

(** The sink behind [reportService]: the records added so far, and how
    often [Render] was called. *)
Record t := mk {
  records : list Record_;
  renders : nat;
}.

Definition New : t := mk [] 0.

Definition AddRecord (r : Record_) (s : t) : t := mk (records s ++ [r]) (renders s).

Definition Render (s : t) : t := mk (records s) (S (renders s)).

End report.

(** ** Package benchmark *)

Module benchmark.

(** The interface [metricService] as the Evaluating phase uses it: the
    methods of a collector whose store no longer changes.  A method either
    returns or panics. *)
Record metricService := mkService {
  GetName : string;
  AggregateResults : outcome string;
  EvaluateMetric : outcome (metric.HealthStatus * gmap string metric.SeverityLevel);
}.

(** The collectors as implementations of the interface.  [GetName] and
    [EvaluateMetric] are the methods promoted from the embedded
    [metric.Base]. *)
Section implementations.
Context `{Formatter}.

Definition ofBase {T} `{metric.Ordered T} (b : metric.Base T) (aggregate : outcome string)
    : metricService :=
  mkService (metric.BaseName b) aggregate (Returns (metric.Evaluate b)).

Definition consensusClient (c : consensus.ClientMetric.t) : metricService :=
  ofBase (consensus.ClientMetric.Base c) (Returns (consensus.ClientMetric.AggregateResults c)).

Definition consensusLatency (l : consensus.LatencyMetric.t) : metricService :=
  ofBase (consensus.LatencyMetric.Base l) (Returns (consensus.LatencyMetric.AggregateResults l)).

Definition consensusPeers (p : consensus.PeerMetric.t) : metricService :=
  ofBase (consensus.PeerMetric.Base p) (Returns (consensus.PeerMetric.AggregateResults p)).

Definition executionPeers (iter : list (string * string)) (p : execution.PeerMetric.t)
    : metricService :=
  ofBase (execution.PeerMetric.Base p) (Returns (execution.PeerMetric.AggregateResults iter p)).

Definition executionLatency (l : execution.LatencyMetric.t) : metricService :=
  ofBase (execution.LatencyMetric.Base l) (execution.LatencyMetric.AggregateResults l).

End implementations.

Record Service := mkSvc {
  metrics : gmap metric.Group (list metricService);
  report_ : report.t;
}.

Definition New (metrics : gmap metric.Group (list metricService))
    (reportService : report.t) : Service :=
  mkSvc metrics reportService.

(** *** Service.Start, the Evaluating phase *)

(** The inner loop of the Evaluating phase over one group.  A panic of a
    method is not recovered anywhere, so it ends the loop (and the
    process) with the sink as it is at that moment. *)
Fixpoint evaluateGroup (metricGroup : metric.Group) (groupMetrics : list metricService)
    (sink : report.t) : report.t * outcome () :=
  match groupMetrics with
  | [] => (sink, Returns ())
  | m :: rest =>
      match EvaluateMetric m with
      | Panic e => (sink, Panic e)
      | Returns (health, severity) =>
          match AggregateResults m with
          | Panic e => (sink, Panic e)
          | Returns value =>
              evaluateGroup metricGroup rest
                (report.AddRecord
                   (report.mkRecord metricGroup (GetName m) value health severity) sink)
          end
      end
  end.

Fixpoint evaluateGroups (iter : list (metric.Group * list metricService))
    (sink : report.t) : report.t * outcome () :=
  match iter with
  | [] => (sink, Returns ())
  | (metricGroup, groupMetrics) :: rest =>
      match evaluateGroup metricGroup groupMetrics sink with
      | (sink', Returns _) => evaluateGroups rest sink'
      | stopped => stopped
      end
  end.

(** [Service.Start] from the moment the context is done: every group in
    the order [iter] the range loop over [s.metrics] takes, then [Render]. *)
Definition evaluateAndRender (iter : list (metric.Group * list metricService))
    (sink : report.t) : report.t * outcome () :=
  match evaluateGroups iter sink with
  | (sink', Returns _) => (report.Render sink', Returns ())
  | stopped => stopped
  end.

(** The collectors of a service, in the order [iter]. *)
Definition enabled (iter : list (metric.Group * list metricService)) : list metricService :=
  mjoin (snd <$> iter).

(** *** Service.Start, with its goroutines

    The interleavings of the orchestrator with the goroutines it starts.
    Collectors are numbered; what a probe reads and writes is abstracted to
    the event that it ran. *)

Inductive event :=
| Launch (i : nat)                (* go metric.Measure(ctx) *)
| Cancel                          (* the context is cancelled or times out *)
| StoreWrite (i : nat)            (* a tick of collector i: measure() writes its store *)
| MeasureReturned (i : nat)       (* collector i took the ctx.Done() case *)
| EvaluateMetricCall (i : nat)    (* the orchestrator reads store i *)
| AggregateResultsCall (i : nat)  (* the orchestrator reads store i *)
| AddRecordCall (i : nat)
| RenderCall.

Global Instance event_eq_dec : EqDecision event.
Proof. solve_decision. Defined.

Inductive task := NotStarted | InLoop | Exited.

Global Instance task_eq_dec : EqDecision task.
Proof. solve_decision. Defined.

(** Where the orchestrator stands in [Start]: in the first range loop, at
    [<-ctx.Done()], in the second range loop (before [EvaluateMetric], or
    between it and [AggregateResults]), or past [Render]. *)
Inductive orchestrator :=
| Launching (rest : list nat)
| AwaitingDone
| Evaluating (rest : list nat)
| Aggregating (i : nat) (rest : list nat)
| Rendered.

Record world := mkWorld {
  done : bool;
  tasks : list task;
  orch : orchestrator;
  trace : list event;
}.

(** [launchOrder] and [evalOrder] are the orders the two range loops over
    [s.metrics] take. *)
Definition initial (n : nat) (launchOrder : list nat) : world :=
  mkWorld false (replicate n NotStarted) (Launching launchOrder) [].

Inductive step (evalOrder : list nat) : world → world → Prop :=
| step_launch d ts i rest tr :
    step evalOrder (mkWorld d ts (Launching (i :: rest)) tr)
                   (mkWorld d (<[i := InLoop]> ts) (Launching rest) (tr ++ [Launch i]))
| step_launched d ts tr :
    step evalOrder (mkWorld d ts (Launching []) tr) (mkWorld d ts AwaitingDone tr)
| step_cancel ts o tr :
    step evalOrder (mkWorld false ts o tr) (mkWorld true ts o (tr ++ [Cancel]))
| step_tick d ts o tr i :
    ts !! i = Some InLoop →
    step evalOrder (mkWorld d ts o tr) (mkWorld d ts o (tr ++ [StoreWrite i]))
| step_return ts o tr i :
    ts !! i = Some InLoop →
    step evalOrder (mkWorld true ts o tr)
                   (mkWorld true (<[i := Exited]> ts) o (tr ++ [MeasureReturned i]))
| step_done ts tr :
    step evalOrder (mkWorld true ts AwaitingDone tr) (mkWorld true ts (Evaluating evalOrder) tr)
| step_evaluate d ts i rest tr :
    step evalOrder (mkWorld d ts (Evaluating (i :: rest)) tr)
                   (mkWorld d ts (Aggregating i rest) (tr ++ [EvaluateMetricCall i]))
| step_aggregate d ts i rest tr :
    step evalOrder (mkWorld d ts (Aggregating i rest) tr)
                   (mkWorld d ts (Evaluating rest) (tr ++ [AggregateResultsCall i; AddRecordCall i]))
| step_render d ts tr :
    step evalOrder (mkWorld d ts (Evaluating []) tr) (mkWorld d ts Rendered (tr ++ [RenderCall])).

(** An execution of [Start] over [n] collectors: any world the steps reach. *)
Definition execution (n : nat) (launchOrder evalOrder : list nat) (w : world) : Prop :=
  rtc (step evalOrder) (initial n launchOrder) w.

Definition readsStore (i : nat) (e : event) : Prop :=
  e = EvaluateMetricCall i ∨ e = AggregateResultsCall i.

(** *** LoadEnabledMetrics: what it hands to the constructors *)

Definition peersConditions (measurement : string) : list (metric.HealthCondition Z) :=
  [ metric.mkHealthCondition measurement 5 metric.OperatorLessThanOrEqual metric.SeverityHigh;
    metric.mkHealthCondition measurement 20 metric.OperatorLessThanOrEqual metric.SeverityMedium;
    metric.mkHealthCondition measurement 40 metric.OperatorLessThanOrEqual metric.SeverityLow ].

Definition latencyConditions (measurement : string) : list (metric.HealthCondition Z) :=
  [ metric.mkHealthCondition measurement time_Second
      metric.OperatorGreaterThanOrEqual metric.SeverityHigh ].

Definition loadConsensusLatency (host : string) : consensus.LatencyMetric.t :=
  consensus.LatencyMetric.NewLatencyMetric host "Latency" (time_Second * 3)
    (latencyConditions consensus.LatencyMetric.DurationP90Measurement).

Definition loadConsensusPeers (address : string) : consensus.PeerMetric.t :=
  consensus.PeerMetric.NewPeerMetric address "Peers" (time_Second * 10)
    (peersConditions consensus.PeerMetric.PeerCountMeasurement).

Definition loadExecutionPeers (address : string) : execution.PeerMetric.t :=
  execution.PeerMetric.NewPeerMetric address "Peers" (time_Second * 10)
    (peersConditions execution.PeerMetric.PeerCountMeasurement).

Definition loadExecutionLatency (host : string) : execution.LatencyMetric.t :=
  execution.LatencyMetric.NewLatencyMetric host "Latency" (time_Second * 3)
    (latencyConditions execution.LatencyMetric.DurationP90Measurement).

End benchmark.

(** The difference of two [uint64] values. *)
Definition sub64 (a b : Z) : Z := (a - b) mod 2 ^ 64.

(** ** Package infrastructure *)

Module infrastructure.

(** *** infrastructure.MemoryMetric *)

Module MemoryMetric.

Definition UsedMemoryMeasurement : string := "Used".
Definition TotalMemoryMeasurement : string := "Total".
Definition CachedMemoryMeasurement : string := "Cached".
Definition FreeMemoryMeasurement : string := "Free".

Record t := mk {
  Base : metric.Base Z;
  interval : Z;
}.

Definition NewMemoryMetric (name : string) (interval : Z)
    (healthCondition : list (metric.HealthCondition Z)) : t :=
  mk (metric.mkBase name [] healthCondition) interval.

(** The fields of [memory.Stats] that are read. *)
Record Stats := mkStats {
  Cached : Z;
  Used : Z;
  Free : Z;
  Total : Z;
}.

(** What one call of [measure] meets: the outcome of [memory.Get]
    ([None]: an error) and the clock reading taken by [AddDataPoint]. *)
Record Tick := mkTick {
  get : option Stats;
  now : Z;
}.

Definition writeMetric (now cached used free total : Z) (m : t) : t :=
  mk (metric.AddDataPoint now
        (<[CachedMemoryMeasurement := cached]>
         (<[UsedMemoryMeasurement := used]>
          (<[FreeMemoryMeasurement := free]>
           (<[TotalMemoryMeasurement := total]> ∅))))
        (Base m))
     (interval m).

Definition measure (k : Tick) (m : t) : t :=
  match get k with
  | None => m
  | Some memoryStats =>
      writeMetric (now k) (Cached memoryStats) (Used memoryStats) (Free memoryStats)
        (Total memoryStats) m
  end.

(** The select loop of [Measure] over the ticks that fire before the
    context is cancelled. *)
Definition Measure (ticks : list Tick) (m : t) : t :=
  foldl (λ m k, measure k m) m ticks.

End MemoryMetric.

(** *** infrastructure.CPUMetric *)

Module CPUMetric.

Definition SystemCPUMeasurement : string := "System".
Definition UserCPUMeasurement : string := "User".

(** The fields of [cpu.Stats] that are read. *)
Record Stats := mkStats {
  User : Z;
  System : Z;
  Total : Z;
}.

(** What one call of [measure] meets: the outcome of [cpu.Get] ([None]: an
    error) and the clock reading taken by [AddDataPoint]. *)
Record Tick := mkTick {
  get : option Stats;
  now : Z;
}.

Section floats.
(** [float64] values, and [percent a b] for float64(a) / float64(b) * 100
    on two [uint64] values. *)
Context {F : Type} (percent : Z → Z → F).

Record t := mk {
  Base : metric.Base F;
  prevUser : Z;
  prevSystem : Z;
  total : Z;
  interval : Z;
}.

Definition NewCPUMetric (name : string) (interval : Z)
    (healthCondition : list (metric.HealthCondition F)) : t :=
  mk (metric.mkBase name [] healthCondition) 0 0 0 interval.

Definition writeMetric (now : Z) (systemPercent userPercent : F) (c : t) : t :=
  mk (metric.AddDataPoint now
        (<[SystemCPUMeasurement := systemPercent]>
         (<[UserCPUMeasurement := userPercent]> ∅))
        (Base c))
     (prevUser c) (prevSystem c) (total c) (interval c).

Definition measure (k : Tick) (c : t) : t :=
  match get k with
  | None => c
  | Some cpu =>
      let systemPercent :=
        percent (sub64 (System cpu) (prevSystem c)) (sub64 (Total cpu) (total c)) in
      let userPercent :=
        percent (sub64 (User cpu) (prevUser c)) (sub64 (Total cpu) (total c)) in
      writeMetric (now k) systemPercent userPercent
        (mk (Base c) (User cpu) (System cpu) (Total cpu) (interval c))
  end.

(** The select loop of [Measure] over the ticks that fire before the
    context is cancelled. *)
Definition Measure (ticks : list Tick) (c : t) : t :=
  foldl (λ c k, measure k c) c ticks.

End floats.

Arguments t : clear implicits.

End CPUMetric.

End infrastructure.

(** ** The stand-alone monitor (Benchmark-solo/metrics/infrastructure) *)

Module monitor.

Section floats.
Context {F : Type} (percent : Z → Z → F).

(** The package-level variables [collectCPUUsage] works on: the previous
    sample, and the two gauges ([None]: never set). *)
Record globals := mkGlobals {
  prevUser : Z;
  prevSystem : Z;
  prevTotal : Z;
  cpuUser : option F;
  cpuSystem : option F;
}.

Definition initially : globals := mkGlobals 0 0 0 None None.

(** [collectCPUUsage] on the outcome of [cpu.Get] ([None]: an error). *)
Definition collectCPUUsage (sample : option infrastructure.CPUMetric.Stats)
    (g : globals) : globals :=
  match sample with
  | None => g
  | Some cpuStat =>
      let g1 :=
        if 0 <? prevTotal g then
          let totalDelta := sub64 (infrastructure.CPUMetric.Total cpuStat) (prevTotal g) in
          if 0 <? totalDelta then
            let userPercent :=
              percent (sub64 (infrastructure.CPUMetric.User cpuStat) (prevUser g))
                totalDelta in
            let systemPercent :=
              percent (sub64 (infrastructure.CPUMetric.System cpuStat) (prevSystem g))
                totalDelta in
            mkGlobals (prevUser g) (prevSystem g) (prevTotal g)
              (Some userPercent) (Some systemPercent)
          else g
        else g in
      mkGlobals (infrastructure.CPUMetric.User cpuStat)
        (infrastructure.CPUMetric.System cpuStat)
        (infrastructure.CPUMetric.Total cpuStat)
        (cpuUser g1) (cpuSystem g1)
  end.

(** The CPU part of the ticks of [startMonitoring]. *)
Definition monitorCPU (samples : list (option infrastructure.CPUMetric.Stats))
    (g : globals) : globals :=
  foldl (λ g sample, collectCPUUsage sample g) g samples.

End floats.

Arguments globals : clear implicits.

End monitor.


(** ** The benchmark configuration (Benchmark-solo/benchmark.go) *)

Module configs.

Record Metric := mkMetric { Enabled : bool }.

Module BeaconMetrics.
Record t := mk {
  Client : Metric;
  Latency : Metric;
  Peers : Metric;
  Attestation : Metric;
  SyncStatus : Metric;
}.
End BeaconMetrics.

Module ExecutionMetrics.
Record t := mk {
  Peers : Metric;
  Latency : Metric;
}.
End ExecutionMetrics.

Module ValidatorMetrics.
Record t := mk {
  Proposals : Metric;
  Attestations : Metric;
  Duties : Metric;
}.
End ValidatorMetrics.

Module InfrastructureMetrics.
Record t := mk {
  CPU : Metric;
  Memory : Metric;
  Disk : Metric;
}.
End InfrastructureMetrics.

Module BeaconNode.
Record t := mk {
  Address : string;
  Metrics : BeaconMetrics.t;
}.
End BeaconNode.

Module ExecutionNode.
Record t := mk {
  Address : string;
  Metrics : ExecutionMetrics.t;
}.
End ExecutionNode.

Module ValidatorClient.
Record t := mk {
  Address : string;
  Metrics : ValidatorMetrics.t;
}.
End ValidatorClient.

Module Infrastructure.
Record t := mk { Metrics : InfrastructureMetrics.t }.
End Infrastructure.

Module Server.
Record t := mk { Port : Z }.
End Server.

(** The fields carry a trailing underscore where the struct's own name is
    taken by its module. *)
Record Benchmark := mkBenchmark {
  BeaconNode_ : BeaconNode.t;
  ExecutionNode_ : ExecutionNode.t;
  ValidatorClient_ : ValidatorClient.t;
  Infrastructure_ : Infrastructure.t;
  Server_ : Server.t;
  Duration : Z;
  Network : string;
}.

Section helpers.
(** [sanitizeURL] and [network.Name.Validate] are defined outside the files
    at hand: [Validate] is modelled over any pair of them.  An error is its
    message, [None] is [nil]. *)
Context (sanitizeURL : string → string * option string)
        (network_Validate : string → option string).

(** [(b *Benchmark).Validate()]: the receiver after the call, and the pair
    the call returns. *)
Definition Validate (b : Benchmark) : Benchmark * (bool * option string) :=
  let beacon :=
    if Enabled (BeaconMetrics.Peers (BeaconNode.Metrics (BeaconNode_ b))) ||
       Enabled (BeaconMetrics.Attestation (BeaconNode.Metrics (BeaconNode_ b))) ||
       Enabled (BeaconMetrics.Client (BeaconNode.Metrics (BeaconNode_ b))) ||
       Enabled (BeaconMetrics.Latency (BeaconNode.Metrics (BeaconNode_ b))) ||
       Enabled (BeaconMetrics.SyncStatus (BeaconNode.Metrics (BeaconNode_ b)))
    then
      match sanitizeURL (BeaconNode.Address (BeaconNode_ b)) with
      | (_, Some err) =>
          (b, Some (errors_Join err "beacon node address was not a valid URL"))
      | (url, None) =>
          (mkBenchmark (BeaconNode.mk url (BeaconNode.Metrics (BeaconNode_ b)))
             (ExecutionNode_ b) (ValidatorClient_ b) (Infrastructure_ b)
             (Server_ b) (Duration b) (Network b), None)
      end
    else (b, None) in
  match beacon with
  | (b, Some err) => (b, (false, Some err))
  | (b, None) =>
  let execution :=
    if Enabled (ExecutionMetrics.Peers (ExecutionNode.Metrics (ExecutionNode_ b))) ||
       Enabled (ExecutionMetrics.Latency (ExecutionNode.Metrics (ExecutionNode_ b)))
    then
      match sanitizeURL (ExecutionNode.Address (ExecutionNode_ b)) with
      | (_, Some err) =>
          (b, Some (errors_Join err "execution node address was not a valid URL"))
      | (url, None) =>
          (mkBenchmark (BeaconNode_ b)
             (ExecutionNode.mk url (ExecutionNode.Metrics (ExecutionNode_ b)))
             (ValidatorClient_ b) (Infrastructure_ b)
             (Server_ b) (Duration b) (Network b), None)
      end
    else (b, None) in
  match execution with
  | (b, Some err) => (b, (false, Some err))
  | (b, None) =>
  let validator :=
    if Enabled (ValidatorMetrics.Proposals (ValidatorClient.Metrics (ValidatorClient_ b))) ||
       Enabled (ValidatorMetrics.Attestations (ValidatorClient.Metrics (ValidatorClient_ b))) ||
       Enabled (ValidatorMetrics.Duties (ValidatorClient.Metrics (ValidatorClient_ b)))
    then
      match sanitizeURL (ValidatorClient.Address (ValidatorClient_ b)) with
      | (_, Some err) =>
          (b, Some (errors_Join err "validator client address was not a valid URL"))
      | (url, None) =>
          (mkBenchmark (BeaconNode_ b) (ExecutionNode_ b)
             (ValidatorClient.mk url (ValidatorClient.Metrics (ValidatorClient_ b)))
             (Infrastructure_ b)
             (Server_ b) (Duration b) (Network b), None)
      end
    else (b, None) in
  match validator with
  | (b, Some err) => (b, (false, Some err))
  | (b, None) =>
      match network_Validate (Network b) with
      | Some err => (b, (false, Some (errors_Join err "network name was not valid")))
      | None => (b, (true, None))
      end
  end end end.

End helpers.

End configs.

(** * Vocabulary of the properties *)

Section evaluator_vocabulary.
Context {T : Type} `{metric.Ordered T}.
Implicit Types (latest : gmap string T) (c : metric.HealthCondition T).

(** The condition holds of the most recent value of its measurement. *)
Definition breached latest c : Prop :=
  ∃ v, latest !! metric.Name c = Some v ∧ metric.HealthCondition_Evaluate c v = true.

End evaluator_vocabulary.

(** The tiered conditions of the design document: X ≥ 90 is High, X ≥ 70 is
    Medium, declared in this order. *)
Definition tiered : list (metric.HealthCondition Z) :=
  [ metric.mkHealthCondition "X" 90 metric.OperatorGreaterThanOrEqual metric.SeverityHigh;
    metric.mkHealthCondition "X" 70 metric.OperatorGreaterThanOrEqual metric.SeverityMedium ].

(** A store whose most recent DataPoint holds X = x. *)
Definition sampled (conds : list (metric.HealthCondition Z)) (name : string) (x : Z)
    : metric.Base Z :=
  metric.AddDataPoint 0 {[ name := x ]} (metric.mkBase "m" [] conds).

(** The measurements a latency DataPoint carries, each with the percentile
    it is written from. *)
Definition latencyKeys : list (string * Z) :=
  [ ("DurationMin"%string, 0); ("DurationP10"%string, 10); ("DurationP50"%string, 50);
    ("DurationP90"%string, 90); ("DurationMax"%string, 100) ].

(** The DataPoint at index [i] holds the percentiles of the first [i + 1]
    durations. *)
Definition cumulative (points : list (metric.DataPoint Z)) (durations : list Z) : Prop :=
  length points = length durations ∧
  ∀ i point key p,
    points !! i = Some point → (key, p) ∈ latencyKeys →
    metric.Values point !! key
    = Some (metric.percentileOf (merge_sort Z.le (take (S i) durations)) p).

Section execution_peers_vocabulary.
Import execution.PeerMetric.

(** The tick at which the RPC answered 200 with an empty [result]. *)
Definition emptyResult (k : Tick) : Prop :=
  newRequestErr k = false ∧
  ∃ res, doResult k = Some res ∧ StatusCode res = http_StatusOK ∧ decoded res = Some ""%string.

Definition storedMessage : string := errors_Join measuringErr emptyResultErr.

(** [measuringErrors] only ever holds the one entry [measure] writes. *)
Definition knownErrors (m : gmap string string) : Prop :=
  m = ∅ ∨ m = {[ PeerCountMeasurement := storedMessage ]}.

End execution_peers_vocabulary.

(** A renderer to run examples with. *)
Definition plainFormatter : Formatter :=
  let render (unit : string) (min p10 p50 p90 max : Z) : string :=
    "min=" +:+ pretty min +:+ unit +:+ ", p10=" +:+ pretty p10 +:+ unit +:+
    ", p50=" +:+ pretty p50 +:+ unit +:+ ", p90=" +:+ pretty p90 +:+ unit +:+
    ", max=" +:+ pretty max +:+ unit in
  {| FormatPercentiles_Duration := render "ns"; FormatPercentiles_uint32 := render "" |}.

(** A run of the execution peer collector as LoadEnabledMetrics builds it:
    25 peers, then an empty result, then 5 peers. *)
Definition peersRun : list execution.PeerMetric.Tick :=
  [ execution.PeerMetric.mkTick false (Some (mkResponse 200 (Some "0x19"%string))) 10;
    execution.PeerMetric.mkTick false (Some (mkResponse 200 (Some ""%string))) 20;
    execution.PeerMetric.mkTick false (Some (mkResponse 200 (Some "0x5"%string))) 30 ].

Definition afterPeersRun : execution.PeerMetric.t :=
  match execution.PeerMetric.Measure peersRun
          (benchmark.loadExecutionPeers "http://geth:8545") with
  | Returns (p, _) => p
  | Panic _ => benchmark.loadExecutionPeers "http://geth:8545"
  end.

Inductive collector :=
| ConsensusClient (c : consensus.ClientMetric.t)
| ConsensusLatency (l : consensus.LatencyMetric.t)
| ConsensusPeers (p : consensus.PeerMetric.t)
| ExecutionPeers (p : execution.PeerMetric.t)
| ExecutionLatency (l : execution.LatencyMetric.t).

(** A collector whose [Measure] has returned: it was constructed with a
    positive interval ([time.NewTicker] panics on any other), went through
    the ticks that fired before the context was cancelled, and left the
    loop. *)
Inductive measured : collector → Prop :=
| measured_consensus_client url name healthCondition measureInterval ticks :
    0 < measureInterval →
    measured (ConsensusClient
      (consensus.ClientMetric.Measure ticks
         (consensus.ClientMetric.NewClientMetric url name healthCondition measureInterval)).1)
| measured_consensus_latency url name interval healthCondition ticks :
    0 < interval →
    measured (ConsensusLatency
      (consensus.LatencyMetric.Measure ticks
         (consensus.LatencyMetric.NewLatencyMetric url name interval healthCondition)).1)
| measured_consensus_peers url name interval healthCondition ticks :
    0 < interval →
    measured (ConsensusPeers
      (consensus.PeerMetric.Measure ticks
         (consensus.PeerMetric.NewPeerMetric url name interval healthCondition)).1)
| measured_execution_peers url name interval healthCondition ticks p probes :
    0 < interval →
    execution.PeerMetric.Measure ticks
      (execution.PeerMetric.NewPeerMetric url name interval healthCondition)
    = Returns (p, probes) →
    measured (ExecutionPeers p)
| measured_execution_latency host name interval healthCondition ticks :
    0 < interval →
    measured (ExecutionLatency
      (execution.LatencyMetric.Measure ticks
         (execution.LatencyMetric.NewLatencyMetric host name interval healthCondition)).1).

(** What one call of [AggregateResults] on the collector may yield. *)
Definition aggregates `{Formatter} (c : collector) (r : outcome string) : Prop :=
  match c with
  | ConsensusClient c => r = Returns (consensus.ClientMetric.AggregateResults c)
  | ConsensusLatency l => r = Returns (consensus.LatencyMetric.AggregateResults l)
  | ConsensusPeers p => r = Returns (consensus.PeerMetric.AggregateResults p)
  | ExecutionPeers p =>
      ∃ iter, rangeOrder (execution.PeerMetric.measuringErrors p) iter ∧
              r = Returns (execution.PeerMetric.AggregateResults iter p)
  | ExecutionLatency l => r = execution.LatencyMetric.AggregateResults l
  end.

(** The store of the collector holds no DataPoint. *)
Definition storeEmpty (c : collector) : Prop :=
  match c with
  | ConsensusClient c => metric.DataPoints (consensus.ClientMetric.Base c) = []
  | ConsensusLatency l => metric.DataPoints (consensus.LatencyMetric.Base l) = []
  | ConsensusPeers p => metric.DataPoints (consensus.PeerMetric.Base p) = []
  | ExecutionPeers p => metric.DataPoints (execution.PeerMetric.Base p) = []
  | ExecutionLatency l => metric.DataPoints (execution.LatencyMetric.Base l) = []
  end.


(** A tick of the consensus client collector against a healthy node. *)
Definition healthyClientTick : consensus.ClientMetric.Tick :=
  consensus.ClientMetric.mkTick
    (consensus.ClientMetric.mkGet (Some (mkResponse 200 None)) 1)
    (consensus.ClientMetric.mkGet (Some (mkResponse 200 (Some "Lighthouse/v5.1.3"%string))) 2)
    (consensus.ClientMetric.mkGet (Some (mkResponse 200 None)) 3)
    (consensus.ClientMetric.mkGet (Some (mkResponse 200 None)) 4)
    12.

(** The probe carries a timeout, and it is no larger than [interval]. *)
Definition withinInterval (interval : Z) (probe : Probe) : Prop :=
  ∃ t, timeout_of probe = Some t ∧ t ≤ interval.

Section orchestration_vocabulary.
Import benchmark.

(** Every occurrence of [b] in the trace has an [a] before it. *)
Definition before (a b : event) (tr : list event) : Prop :=
  ∀ pre post, tr = pre ++ b :: post → a ∈ pre.

(** The discipline the design document asks for: a store is read only
    after its collector's [Measure] has returned. *)
Definition joinsBeforeReading (n : nat) (launchOrder evalOrder : list nat) : Prop :=
  ∀ w, execution n launchOrder evalOrder w →
  ∀ i e, readsStore i e → before (MeasureReturned i) e (trace w).

Definition pastDone (o : orchestrator) : Prop :=
  match o with
  | Launching _ | AwaitingDone => False
  | _ => True
  end.

(** What holds of every world an execution reaches. *)
Definition invariant (launchOrder : list nat) (w : world) : Prop :=
  (done w = true → Cancel ∈ trace w) ∧
  (pastDone (orch w) → Cancel ∈ trace w) ∧
  (∀ j, j ∈ launchOrder →
     match orch w with
     | Launching rest => j ∈ rest ∨ Launch j ∈ trace w
     | _ => Launch j ∈ trace w
     end) ∧
  (∀ i e, readsStore i e →
     before Cancel e (trace w) ∧ ∀ j, j ∈ launchOrder → before (Launch j) e (trace w)).

(** Both methods of the collector return. *)
Definition answers (m : metricService) : Prop :=
  (∃ verdict, EvaluateMetric m = Returns verdict) ∧ (∃ value, AggregateResults m = Returns value).

End orchestration_vocabulary.

(** One collector, launched and then cancelled: the orchestrator has
    called its EvaluateMetric while the collector is still in its loop, and
    the collector has written to its store since. *)
Definition racyWorld : benchmark.world :=
  benchmark.mkWorld true [benchmark.InLoop] (benchmark.Aggregating 0 [])
    [ benchmark.Launch 0; benchmark.Cancel; benchmark.EvaluateMetricCall 0;
      benchmark.StoreWrite 0 ].

(** An execution latency collector, as LoadEnabledMetrics builds it, whose
    two probes both failed: its store is empty. *)
Definition unreachableLatency : execution.LatencyMetric.t :=
  (execution.LatencyMetric.Measure
     [execution.LatencyMetric.mkTick None 1; execution.LatencyMetric.mkTick None 2]
     (benchmark.loadExecutionLatency "geth:8545")).1.

(** The consensus latency collector in the same situation. *)
Definition unreachableConsensusLatency : consensus.LatencyMetric.t :=
  (consensus.LatencyMetric.Measure
     [consensus.LatencyMetric.mkTick None 1; consensus.LatencyMetric.mkTick None 2]
     (benchmark.loadConsensusLatency "lighthouse:5052")).1.

(** A consensus peer collector that saw 30 peers once. *)
Definition steadyConsensusPeers : consensus.PeerMetric.t :=
  (consensus.PeerMetric.Measure
     [consensus.PeerMetric.mkTick false (Some (mkResponse 200 (Some "30"%string))) 5]
     (benchmark.loadConsensusPeers "http://lighthouse:5052")).1.

Section start_vocabulary.
Import benchmark.

(** The collectors of a service, each with the group it is listed under,
    in the order the range loops of [Start] visit them. *)
Definition listed (iter : list (metric.Group * list metricService))
    : list (metric.Group * metricService) :=
  iter ≫= λ '(g, ms), (λ m, (g, m)) <$> ms.

(** The Record [Start] hands to the sink for a collector whose methods
    return. *)
Definition recordOf (gm : metric.Group * metricService) (r : report.Record_) : Prop :=
  ∃ health severity value,
    EvaluateMetric gm.2 = Returns (health, severity) ∧
    AggregateResults gm.2 = Returns value ∧
    r = report.mkRecord gm.1 (GetName gm.2) value health severity.

(** The collector panics with [e] when [Start] evaluates it: in
    [EvaluateMetric], or else in [AggregateResults]. *)
Definition fails (m : metricService) (e : string) : Prop :=
  EvaluateMetric m = Panic e ∨
  (∃ verdict, EvaluateMetric m = Returns verdict ∧ AggregateResults m = Panic e).

End start_vocabulary.

Section schedule_vocabulary.
Import benchmark.

(** The events of the orchestrator itself. *)
Definition ownEvent (e : event) : bool :=
  match e with
  | Launch _ | EvaluateMetricCall _ | AggregateResultsCall _ | AddRecordCall _
  | RenderCall => true
  | Cancel | StoreWrite _ | MeasureReturned _ => false
  end.

(** The second loop of [Start] over [order], then [Render]. *)
Definition evaluation (order : list nat) : list event :=
  (order ≫= λ i, [EvaluateMetricCall i; AggregateResultsCall i; AddRecordCall i])
  ++ [RenderCall].

(** What the orchestrator does from start to end. *)
Definition script (launchOrder evalOrder : list nat) : list event :=
  (Launch <$> launchOrder) ++ evaluation evalOrder.

(** What the orchestrator still has to do. *)
Definition remaining (o : orchestrator) (evalOrder : list nat) : list event :=
  match o with
  | Launching rest => (Launch <$> rest) ++ evaluation evalOrder
  | AwaitingDone => evaluation evalOrder
  | Evaluating rest => evaluation rest
  | Aggregating i rest => [AggregateResultsCall i; AddRecordCall i] ++ evaluation rest
  | Rendered => []
  end.

(** No [b] comes after an [a] in the trace. *)
Definition neverAfter (a b : event) (tr : list event) : Prop :=
  ∀ pre post, tr = pre ++ a :: post → b ∉ post.

(** How a collector behaves within an execution: it writes to its store
    only between its launch and its return, and it returns at most once,
    after the cancellation. *)
Definition disciplined (tr : list event) : Prop :=
  ∀ i,
    before Cancel (MeasureReturned i) tr ∧
    before (Launch i) (MeasureReturned i) tr ∧
    before (Launch i) (StoreWrite i) tr ∧
    neverAfter (MeasureReturned i) (StoreWrite i) tr ∧
    neverAfter (MeasureReturned i) (MeasureReturned i) tr.

(** What the tasks and the trace of a reachable world have to do with
    each other. *)
Definition tasksInvariant (w : world) : Prop :=
  (done w = true → Cancel ∈ trace w) ∧
  (∀ i, tasks w !! i = Some InLoop ∨ tasks w !! i = Some Exited → Launch i ∈ trace w) ∧
  (∀ i, MeasureReturned i ∈ trace w → tasks w !! i = Some Exited) ∧
  match orch w with
  | Launching rest =>
      NoDup rest ∧ ∀ i, i ∈ rest → tasks w !! i = Some NotStarted ∨ tasks w !! i = None
  | _ => True
  end.

End schedule_vocabulary.

(** The execution in which [Start] ran to its end over one collector that
    is still in its loop. *)
Definition finishedWorld : benchmark.world :=
  benchmark.mkWorld true [benchmark.InLoop] benchmark.Rendered
    [ benchmark.Launch 0; benchmark.Cancel; benchmark.EvaluateMetricCall 0;
      benchmark.StoreWrite 0; benchmark.AggregateResultsCall 0; benchmark.AddRecordCall 0;
      benchmark.RenderCall ].

(** The same tick outcomes as the two latency collectors meet them: the
    duration measured ([None]: the probe failed) and the clock reading. *)
Definition asDial (k : option Z * Z) : execution.LatencyMetric.Tick :=
  execution.LatencyMetric.mkTick k.1 k.2.

Definition asGet (k : option Z * Z) : consensus.LatencyMetric.Tick :=
  consensus.LatencyMetric.mkTick k.1 k.2.

(** The successful samples of a run of the memory collector, each with
    the clock reading of its tick. *)
Definition memorySamples (ticks : list infrastructure.MemoryMetric.Tick)
    : list (Z * infrastructure.MemoryMetric.Stats) :=
  omap (λ k, (λ st, (infrastructure.MemoryMetric.now k, st))
               <$> infrastructure.MemoryMetric.get k) ticks.

(** The DataPoint holds the sample: its four values, under the four
    measurement names, and nothing else. *)
Definition holdsMemory (point : metric.DataPoint Z)
    (s : Z * infrastructure.MemoryMetric.Stats) : Prop :=
  metric.Timestamp point = s.1 ∧
  metric.Values point !! "Cached"%string = Some (infrastructure.MemoryMetric.Cached s.2) ∧
  metric.Values point !! "Used"%string = Some (infrastructure.MemoryMetric.Used s.2) ∧
  metric.Values point !! "Free"%string = Some (infrastructure.MemoryMetric.Free s.2) ∧
  metric.Values point !! "Total"%string = Some (infrastructure.MemoryMetric.Total s.2) ∧
  size (metric.Values point) = 4%nat.

(** The successful samples of a run of the CPU collector. *)
Definition cpuSamples (ticks : list infrastructure.CPUMetric.Tick)
    : list (Z * infrastructure.CPUMetric.Stats) :=
  omap (λ k, (λ st, (infrastructure.CPUMetric.now k, st))
               <$> infrastructure.CPUMetric.get k) ticks.

(** The sample the CPU collector remembers. *)
Definition remembered {F} (c : infrastructure.CPUMetric.t F) : infrastructure.CPUMetric.Stats :=
  infrastructure.CPUMetric.mkStats (infrastructure.CPUMetric.prevUser c)
    (infrastructure.CPUMetric.prevSystem c) (infrastructure.CPUMetric.total c).

(** The DataPoint holds the shares of the step from the sample [previous]
    to the sample [s], computed on wrap-around differences. *)
Definition holdsCPU {F} (percent : Z → Z → F) (point : metric.DataPoint F)
    (step : infrastructure.CPUMetric.Stats * (Z * infrastructure.CPUMetric.Stats)) : Prop :=
  let previous := step.1 in
  let s := step.2.2 in
  let totalDelta := sub64 (infrastructure.CPUMetric.Total s)
                      (infrastructure.CPUMetric.Total previous) in
  metric.Timestamp point = step.2.1 ∧
  metric.Values point !! "System"%string
  = Some (percent (sub64 (infrastructure.CPUMetric.System s)
                     (infrastructure.CPUMetric.System previous)) totalDelta) ∧
  metric.Values point !! "User"%string
  = Some (percent (sub64 (infrastructure.CPUMetric.User s)
                     (infrastructure.CPUMetric.User previous)) totalDelta) ∧
  size (metric.Values point) = 2%nat.

(** Each sample of a run with the one before it, the first with [first]. *)
Definition withPrevious {A} (first : A) (samples : list (Z * A)) : list (A * (Z * A)) :=
  zip (first :: (snd <$> samples)) samples.

(** Both gauges were never set, or both hold a share computed with a
    denominator that is a positive [uint64]. *)
Definition gaugesSound {F} (percent : Z → Z → F) (g : monitor.globals F) : Prop :=
  (monitor.cpuUser g = None ∧ monitor.cpuSystem g = None) ∨
  ∃ userDelta systemDelta totalDelta,
    0 < totalDelta < 2 ^ 64 ∧
    monitor.cpuUser g = Some (percent userDelta totalDelta) ∧
    monitor.cpuSystem g = Some (percent systemDelta totalDelta).

(** The four checks of [configs.Benchmark.Validate], in the order the code
    makes them. *)
Inductive check := BeaconAddress | ExecutionAddress | ValidatorAddress | NetworkName.

Definition rank (c : check) : nat :=
  match c with
  | BeaconAddress => 0
  | ExecutionAddress => 1
  | ValidatorAddress => 2
  | NetworkName => 3
  end.

Definition message (c : check) : string :=
  match c with
  | BeaconAddress => "beacon node address was not a valid URL"
  | ExecutionAddress => "execution node address was not a valid URL"
  | ValidatorAddress => "validator client address was not a valid URL"
  | NetworkName => "network name was not valid"
  end.

(** The string a check looks at. *)
Definition subject (c : check) (b : configs.Benchmark) : string :=
  match c with
  | BeaconAddress => configs.BeaconNode.Address (configs.BeaconNode_ b)
  | ExecutionAddress => configs.ExecutionNode.Address (configs.ExecutionNode_ b)
  | ValidatorAddress => configs.ValidatorClient.Address (configs.ValidatorClient_ b)
  | NetworkName => configs.Network b
  end.

(** A node's address is checked when one of its metrics is enabled; the
    network name always is. *)
Definition needed (c : check) (b : configs.Benchmark) : bool :=
  match c with
  | BeaconAddress =>
      let metrics := configs.BeaconNode.Metrics (configs.BeaconNode_ b) in
      configs.Enabled (configs.BeaconMetrics.Peers metrics) ||
      configs.Enabled (configs.BeaconMetrics.Attestation metrics) ||
      configs.Enabled (configs.BeaconMetrics.Client metrics) ||
      configs.Enabled (configs.BeaconMetrics.Latency metrics) ||
      configs.Enabled (configs.BeaconMetrics.SyncStatus metrics)
  | ExecutionAddress =>
      let metrics := configs.ExecutionNode.Metrics (configs.ExecutionNode_ b) in
      configs.Enabled (configs.ExecutionMetrics.Peers metrics) ||
      configs.Enabled (configs.ExecutionMetrics.Latency metrics)
  | ValidatorAddress =>
      let metrics := configs.ValidatorClient.Metrics (configs.ValidatorClient_ b) in
      configs.Enabled (configs.ValidatorMetrics.Proposals metrics) ||
      configs.Enabled (configs.ValidatorMetrics.Attestations metrics) ||
      configs.Enabled (configs.ValidatorMetrics.Duties metrics)
  | NetworkName => true
  end.

(** Everything [Validate] has no business with: the metric switches, the
    infrastructure and server sections, the duration and the network name. *)
Definition sameSettings (b b' : configs.Benchmark) : Prop :=
  configs.BeaconNode.Metrics (configs.BeaconNode_ b')
  = configs.BeaconNode.Metrics (configs.BeaconNode_ b) ∧
  configs.ExecutionNode.Metrics (configs.ExecutionNode_ b')
  = configs.ExecutionNode.Metrics (configs.ExecutionNode_ b) ∧
  configs.ValidatorClient.Metrics (configs.ValidatorClient_ b')
  = configs.ValidatorClient.Metrics (configs.ValidatorClient_ b) ∧
  configs.Infrastructure_ b' = configs.Infrastructure_ b ∧
  configs.Server_ b' = configs.Server_ b ∧
  configs.Duration b' = configs.Duration b ∧
  configs.Network b' = configs.Network b.

Section validate_vocabulary.
Context (sanitizeURL : string → string * option string)
        (network_Validate : string → option string).

(** The error of a check on the configuration as it was given, if the check
    is made and fails. *)
Definition failure (c : check) (b : configs.Benchmark) : option string :=
  if needed c b then
    match c with
    | NetworkName => network_Validate (subject c b)
    | _ => (sanitizeURL (subject c b)).2
    end
  else None.

(** What a check that passes leaves in the place it looked at. *)
Definition rewritten (c : check) (b : configs.Benchmark) : string :=
  match c with
  | NetworkName => subject c b
  | _ => if needed c b then (sanitizeURL (subject c b)).1 else subject c b
  end.

End validate_vocabulary.

(** A stand-in for [sanitizeURL]: the empty address is refused, any other
    gets a scheme. *)
Definition schemeAdder (address : string) : string * option string :=
  if decide (address = ""%string) then (""%string, Some "empty address"%string)
  else (("http://" +:+ address)%string, None).

Definition anyNetwork (name : string) : option string := None.

(** Beacon and execution metrics are enabled; the execution address is
    missing. *)
Definition halfConfigured : configs.Benchmark :=
  let on := configs.mkMetric true in
  let off := configs.mkMetric false in
  configs.mkBenchmark
    (configs.BeaconNode.mk "localhost:5052"
       (configs.BeaconMetrics.mk on off off off off))
    (configs.ExecutionNode.mk "" (configs.ExecutionMetrics.mk on off))
    (configs.ValidatorClient.mk "localhost:9000"
       (configs.ValidatorMetrics.mk off off off))
    (configs.Infrastructure.mk (configs.InfrastructureMetrics.mk off off off))
    (configs.Server.mk 8080) 60 "mainnet".

(** A run of the execution peer collector through a transport error, a
    503, an unparsable count and a good answer. *)
Definition mixedFailures : list execution.PeerMetric.Tick :=
  [ execution.PeerMetric.mkTick false None 1;
    execution.PeerMetric.mkTick false (Some (mkResponse 503 None)) 2;
    execution.PeerMetric.mkTick false (Some (mkResponse 200 (Some "0xzz"%string))) 3;
    execution.PeerMetric.mkTick false (Some (mkResponse 200 (Some "0x2a"%string))) 4 ].








(** The two ticks the execution peer collector does not survive: the
    request could not be built, or the node answered 200 with a result of a
    single character. *)
Definition crashes (k : execution.PeerMetric.Tick) : Prop :=
  execution.PeerMetric.newRequestErr k = true ∨
  ∃ res c, execution.PeerMetric.doResult k = Some res ∧
           StatusCode res = http_StatusOK ∧
           decoded res = Some (String c EmptyString).

(** * Properties *)

(** ** The embedding on concrete inputs *)

Example ParseInt_hex : strconv_ParseInt "1f" 16 = Some 31.
Proof. reflexivity. Qed.

Example ParseInt_hex_sign : strconv_ParseInt "-1F" 16 = Some (-31).
Proof. reflexivity. Qed.

Example ParseInt_hex_syntax : strconv_ParseInt "0x1f" 16 = None.
Proof. reflexivity. Qed.

Example ParseInt_range : strconv_ParseInt "8000000000000000" 16 = None.
Proof. reflexivity. Qed.

Example Atoi_decimal : strconv_Atoi "42" = Some 42 ∧ strconv_Atoi "4a" = None.
Proof. split; reflexivity. Qed.

Example uint32_wraps : uint32 (-1) = 4294967295 ∧ uint32 4294967301 = 5.
Proof. split; reflexivity. Qed.

Example percentiles_of_peer_counts :
  metric.CalculatePercentiles [10; 10; 5; 40] requested
  = {[ 0 := 5; 10 := 5; 50 := 10; 90 := 40; 100 := 40 ]}.
Proof. vm_compute. reflexivity. Qed.

Example percentiles_of_nothing :
  metric.CalculatePercentiles [] requested
  = {[ 0 := 0; 10 := 0; 50 := 0; 90 := 0; 100 := 0 ]}.
Proof. vm_compute. reflexivity. Qed.

(** A one-byte result makes [peerCountHex[2:]] panic. *)
Example peers_measure_short_result :
  execution.PeerMetric.measure
    (execution.PeerMetric.mkTick false (Some (mkResponse 200 (Some "7"%string))) 1)
    (benchmark.loadExecutionPeers "http://geth:8545")
  = Panic "slice bounds out of range".
Proof. reflexivity. Qed.

Example peers_aggregate_without_errors :
  execution.PeerMetric.AggregateResults (H := plainFormatter) []
    (benchmark.loadExecutionPeers "http://geth:8545")
  = "min=0, p10=0, p50=0, p90=0, max=0"%string.
Proof. vm_compute. reflexivity. Qed.

Example client_aggregate_after_one_tick :
  consensus.ClientMetric.AggregateResults
    (consensus.ClientMetric.tick healthyClientTick
       (consensus.ClientMetric.NewClientMetric "http://lighthouse:5052" "Client" []
          (time_Second * 3))).1
  = "Version: Lighthouse/v5.1.3, Node Health: Healthy, Sync Status: Synced, Latency: 12ms"%string.
Proof. vm_compute. reflexivity. Qed.

(** A failed dial leaves the store of a latency collector as it was. *)
Example latency_failed_dial :
  metric.DataPoints (execution.LatencyMetric.Base unreachableLatency) = [] ∧
  execution.LatencyMetric.durations unreachableLatency = [].
Proof. split; reflexivity. Qed.

(** ** The percentile calculator *)

Section percentiles.

Lemma lookup_foldl_insert (f : Z → Z) (ps : list Z) (m : gmap Z Z) (q : Z) :
  foldl (λ m p, <[p := f p]> m) m ps !! q
  = if decide (q ∈ ps) then Some (f q) else m !! q.
Proof.
  revert m. induction ps as [|p ps IH]; intros m.
  - done.
  - simpl foldl. rewrite IH.
    destruct (decide (q = p)) as [->|Hne].
    + rewrite lookup_insert_eq.
      rewrite (decide_True (P := p ∈ p :: ps)) by (by left). by case_decide.
    + rewrite lookup_insert_ne by done.
      destruct (decide (q ∈ ps)) as [Hin|Hout].
      * by rewrite decide_True by (by right).
      * rewrite decide_False; [done|]. rewrite elem_of_cons. tauto.
Qed.

Lemma CalculatePercentiles_lookup (values percentiles : list Z) (p : Z) :
  p ∈ percentiles →
  metric.CalculatePercentiles values percentiles !! p
  = Some (metric.percentileOf (merge_sort Z.le values) p).
Proof.
  intros Hin. unfold metric.CalculatePercentiles. cbv zeta.
  rewrite lookup_foldl_insert. by rewrite decide_True.
Qed.

Lemma CalculatePercentiles_lookup_None (values percentiles : list Z) (p : Z) :
  p ∉ percentiles → metric.CalculatePercentiles values percentiles !! p = None.
Proof.
  intros Hout. unfold metric.CalculatePercentiles. cbv zeta.
  rewrite lookup_foldl_insert. by rewrite decide_False.
Qed.

Lemma StronglySorted_lookup_le (l : list Z) (i j : nat) (x y : Z) :
  StronglySorted Z.le l → (i ≤ j)%nat → l !! i = Some x → l !! j = Some y → x ≤ y.
Proof.
  intros Hs. revert i j. induction Hs as [|a l Hs IH Hall]; intros i j Hij Hi Hj.
  - by rewrite lookup_nil in Hi.
  - destruct i as [|i], j as [|j]; simpl in *.
    + simplify_eq. lia.
    + simplify_eq. rewrite Forall_forall in Hall.
      apply Hall. by eapply list_elem_of_lookup_2.
    + lia.
    + eapply IH; [|done..]. lia.
Qed.

Lemma merge_sort_StronglySorted (values : list Z) :
  StronglySorted Z.le (merge_sort Z.le values).
Proof. apply StronglySorted_merge_sort; apply _. Qed.

Lemma merge_sort_length (values : list Z) :
  length (merge_sort Z.le values) = length values.
Proof. apply Permutation_length, merge_sort_Permutation. Qed.

Lemma merge_sort_elem_of (values : list Z) (x : Z) :
  x ∈ merge_sort Z.le values ↔ x ∈ values.
Proof. by rewrite merge_sort_Permutation. Qed.

Lemma percentileIndex_lt (p : Z) (n : nat) :
  (0 < n)%nat → (metric.percentileIndex p n < n)%nat.
Proof.
  intros Hn. unfold metric.percentileIndex.
  generalize ((p * Z.of_nat n + 99) / 100). lia.
Qed.

Lemma percentileIndex_mono (p q : Z) (n : nat) :
  p ≤ q → (metric.percentileIndex p n ≤ metric.percentileIndex q n)%nat.
Proof.
  intros Hpq. unfold metric.percentileIndex.
  assert ((p * Z.of_nat n + 99) / 100 ≤ (q * Z.of_nat n + 99) / 100).
  { apply Z.div_le_mono; [lia | nia]. }
  revert H. generalize ((p * Z.of_nat n + 99) / 100) ((q * Z.of_nat n + 99) / 100). lia.
Qed.

Lemma percentileIndex_0 (n : nat) : metric.percentileIndex 0 n = 0%nat.
Proof.
  unfold metric.percentileIndex. rewrite Z.mul_0_l.
  change ((0 + 99) / 100) with 0. lia.
Qed.

Lemma percentileIndex_100 (n : nat) : metric.percentileIndex 100 n = (n - 1)%nat.
Proof.
  unfold metric.percentileIndex.
  replace ((100 * Z.of_nat n + 99) / 100) with (Z.of_nat n).
  - lia.
  - apply Z.div_unique with (r := 99); lia.
Qed.

(** The index read is the nearest rank: with c the least integer such that
    p·n ≤ 100·c, it is c − 1 brought into [0, n−1]. *)
Lemma percentileIndex_nearest_rank (p : Z) (n : nat) :
  ∃ c : Z, 100 * (c - 1) < p * Z.of_nat n ≤ 100 * c ∧
    Z.of_nat (metric.percentileIndex p n) = Z.max 0 (Z.min (Z.of_nat n - 1) (c - 1)).
Proof.
  exists ((p * Z.of_nat n + 99) / 100). split.
  - pose proof (Z.div_mod (p * Z.of_nat n + 99) 100 ltac:(lia)).
    pose proof (Z.mod_pos_bound (p * Z.of_nat n + 99) 100 ltac:(lia)). lia.
  - unfold metric.percentileIndex.
    generalize ((p * Z.of_nat n + 99) / 100). lia.
Qed.

Lemma percentileOf_lookup (values : list Z) (p : Z) :
  values ≠ [] →
  merge_sort Z.le values !! metric.percentileIndex p (length values)
  = Some (metric.percentileOf (merge_sort Z.le values) p).
Proof.
  intros Hne. unfold metric.percentileOf. rewrite merge_sort_length.
  destruct (lookup_lt_is_Some_2 (merge_sort Z.le values)
              (metric.percentileIndex p (length values))) as [v Hv].
  - rewrite merge_sort_length. apply percentileIndex_lt.
    destruct values; [done | simpl; lia].
  - by rewrite Hv.
Qed.

End percentiles.

(** C5.  CalculatePercentiles is the nearest-rank method.  For a non-empty
    input, each requested percentile p is the element of the ascending
    arrangement of the input at index ceil(p/100 × n) − 1 brought into
    [0, n−1]; percentile 0 is the minimum, percentile 100 the maximum, and
    the result does not decrease as p grows.  For an empty input every
    requested percentile is the zero value. *)
Theorem CalculatePercentiles_nearest_rank (values percentiles : list Z)
    (Hne : values ≠ []) :
  let n := Z.of_nat (length values) in
  let sorted := merge_sort Z.le values in
  let result := metric.CalculatePercentiles values percentiles in
  Sorted Z.le sorted ∧ sorted ≡ₚ values ∧
  (∀ p, p ∈ percentiles →
     ∃ c v, 100 * (c - 1) < p * n ≤ 100 * c ∧
            sorted !! Z.to_nat (Z.max 0 (Z.min (n - 1) (c - 1))) = Some v ∧
            result !! p = Some v) ∧
  (0 ∈ percentiles →
     ∃ v, result !! 0 = Some v ∧ v ∈ values ∧ ∀ y, y ∈ values → v ≤ y) ∧
  (100 ∈ percentiles →
     ∃ v, result !! 100 = Some v ∧ v ∈ values ∧ ∀ y, y ∈ values → y ≤ v) ∧
  (∀ p q v w, p ≤ q → result !! p = Some v → result !! q = Some w → v ≤ w) ∧
  (∀ p, p ∈ percentiles → metric.CalculatePercentiles [] percentiles !! p = Some 0).
Proof.
  intros n sorted result.
  pose proof (merge_sort_StronglySorted values) as Hsorted.
  assert (Hlen : (0 < length values)%nat) by (destruct values; [done | simpl; lia]).
  split; [apply Sorted_merge_sort; apply _|].
  split; [apply merge_sort_Permutation|].
  split; [|split; [|split; [|split]]].
  - intros p Hp.
    destruct (percentileIndex_nearest_rank p (length values)) as (c & Hc & Hidx).
    exists c, (metric.percentileOf sorted p). split; [done|]. split.
    + fold n in Hidx. rewrite <- Hidx, Nat2Z.id. by apply percentileOf_lookup.
    + by apply CalculatePercentiles_lookup.
  - intros H0. exists (metric.percentileOf sorted 0).
    pose proof (percentileOf_lookup values 0 Hne) as Hat.
    rewrite percentileIndex_0 in Hat. fold sorted in Hat.
    split; [by apply CalculatePercentiles_lookup|]. split.
    + apply merge_sort_elem_of. by eapply list_elem_of_lookup_2.
    + intros y Hy. apply merge_sort_elem_of, list_elem_of_lookup_1 in Hy as [j Hj].
      eapply (StronglySorted_lookup_le _ 0 j); [done | lia | done | done].
  - intros H100. exists (metric.percentileOf sorted 100).
    pose proof (percentileOf_lookup values 100 Hne) as Hat.
    rewrite percentileIndex_100 in Hat. fold sorted in Hat.
    split; [by apply CalculatePercentiles_lookup|]. split.
    + apply merge_sort_elem_of. by eapply list_elem_of_lookup_2.
    + intros y Hy. apply merge_sort_elem_of, list_elem_of_lookup_1 in Hy as [j Hj].
      pose proof (lookup_lt_Some _ _ _ Hj) as Hlt.
      rewrite merge_sort_length in Hlt.
      eapply (StronglySorted_lookup_le _ j (length values - 1)); [done | lia | done | done].
  - intros p q v w Hpq Hv Hw. unfold result in Hv, Hw.
    destruct (decide (p ∈ percentiles)) as [Hp|Hp];
      [|by rewrite (CalculatePercentiles_lookup_None _ _ _ Hp) in Hv].
    destruct (decide (q ∈ percentiles)) as [Hq|Hq];
      [|by rewrite (CalculatePercentiles_lookup_None _ _ _ Hq) in Hw].
    rewrite CalculatePercentiles_lookup in Hv, Hw by done. simplify_eq.
    eapply StronglySorted_lookup_le;
      [done | by apply percentileIndex_mono | by apply percentileOf_lookup..].
  - intros p Hp. by rewrite CalculatePercentiles_lookup.
Qed.

(** C5 on the durations 30, 10, 20. *)
Lemma CalculatePercentiles_nearest_rank_witness :
  [30; 10; 20] ≠ [] ∧
  metric.CalculatePercentiles [30; 10; 20] requested !! 0 = Some 10 ∧
  metric.CalculatePercentiles [30; 10; 20] requested !! 50 = Some 20 ∧
  metric.CalculatePercentiles [30; 10; 20] requested !! 100 = Some 30 ∧
  ∀ p q v w, p ≤ q →
    metric.CalculatePercentiles [30; 10; 20] requested !! p = Some v →
    metric.CalculatePercentiles [30; 10; 20] requested !! q = Some w → v ≤ w.
Proof.
  assert (Hne : [30; 10; 20] ≠ @nil Z) by done.
  split; [exact Hne|].
  split; [vm_compute; reflexivity|].
  split; [vm_compute; reflexivity|].
  split; [vm_compute; reflexivity|].
  exact (proj1 (proj2 (proj2 (proj2 (proj2 (proj2
    (CalculatePercentiles_nearest_rank [30; 10; 20] requested Hne))))))).
Defined.

(** ** The health evaluator *)

Section evaluator.
Context {T : Type} `{metric.Ordered T}.
Implicit Types (latest : gmap string T) (sev : gmap string metric.SeverityLevel).
Implicit Types (c : metric.HealthCondition T) (conds : list (metric.HealthCondition T)).

Lemma applyCondition_other latest sev c x :
  metric.Name c ≠ x → metric.applyCondition latest sev c !! x = sev !! x.
Proof.
  intros Hne. unfold metric.applyCondition.
  destruct (sev !! metric.Name c), (latest !! metric.Name c); try done.
  destruct (metric.HealthCondition_Evaluate c t); [|done].
  by rewrite lookup_insert_ne.
Qed.

Lemma applyCondition_keep latest sev c x s :
  sev !! x = Some s → metric.applyCondition latest sev c !! x = Some s.
Proof.
  intros Hs. destruct (decide (metric.Name c = x)) as [<-|Hne].
  - unfold metric.applyCondition. by rewrite Hs.
  - by rewrite applyCondition_other.
Qed.

Lemma applyCondition_unbreached latest sev c :
  ¬ breached latest c → metric.applyCondition latest sev c = sev.
Proof.
  intros Hno. unfold metric.applyCondition.
  destruct (sev !! metric.Name c); [done|].
  destruct (latest !! metric.Name c) as [v|] eqn:Hv; [|done].
  destruct (metric.HealthCondition_Evaluate c v) eqn:He; [|done].
  exfalso. apply Hno. by exists v.
Qed.

Lemma applyCondition_breached latest sev c :
  breached latest c → sev !! metric.Name c = None →
  metric.applyCondition latest sev c !! metric.Name c = Some (metric.Severity c).
Proof.
  intros (v & Hv & He) Hnone. unfold metric.applyCondition.
  rewrite Hnone, Hv, He. apply lookup_insert_eq.
Qed.

Lemma foldl_applyCondition_keep latest conds sev x s :
  sev !! x = Some s → foldl (metric.applyCondition latest) sev conds !! x = Some s.
Proof.
  revert sev. induction conds as [|c conds IH]; intros sev Hs; [done|].
  simpl. by apply IH, applyCondition_keep.
Qed.

Lemma foldl_applyCondition_skip latest conds sev x :
  (∀ c, c ∈ conds → metric.Name c = x → ¬ breached latest c) →
  foldl (metric.applyCondition latest) sev conds !! x = sev !! x.
Proof.
  revert sev. induction conds as [|c conds IH]; intros sev Hno; [done|].
  simpl. rewrite IH.
  - destruct (decide (metric.Name c = x)) as [Hx|Hx].
    + rewrite applyCondition_unbreached; [done|]. apply Hno; [by left | done].
    + by apply applyCondition_other.
  - intros c' Hin. apply Hno. by right.
Qed.

Lemma anyHigh_spec sev :
  metric.anyHigh sev = true ↔ ∃ x, sev !! x = Some metric.SeverityHigh.
Proof.
  unfold metric.anyHigh. rewrite bool_decide_eq_true. split.
  - intros (x & s & Hx & ->). by exists x.
  - intros [x Hx]. by exists x, metric.SeverityHigh.
Qed.

End evaluator.

(** C7.  Conditions are applied in declared order and the first one that
    holds of a measurement fixes its severity; a measurement of which no
    condition holds has no severity, and the verdict is Unhealthy exactly
    when some severity is High.  With [X ≥ 90: High; X ≥ 70: Medium], the
    sample 95 is High, 75 is Medium, and 10 is Healthy with no severity. *)
Theorem Evaluate_first_match_wins {T : Type} `{metric.Ordered T}
    (latest : gmap string T) (conds : list (metric.HealthCondition T)) :
  let result := metric.evaluateConditions latest conds in
  (∀ pre c post,
     conds = pre ++ c :: post →
     breached latest c →
     (∀ c', c' ∈ pre → metric.Name c' = metric.Name c → ¬ breached latest c') →
     result.2 !! metric.Name c = Some (metric.Severity c)) ∧
  (∀ x, (∀ c, c ∈ conds → metric.Name c = x → ¬ breached latest c) →
     result.2 !! x = None) ∧
  (result.1 = metric.Unhealthy ↔ ∃ x, result.2 !! x = Some metric.SeverityHigh) ∧
  metric.Evaluate (sampled tiered "X" 95)
    = (metric.Unhealthy, {[ "X"%string := metric.SeverityHigh ]}) ∧
  metric.Evaluate (sampled tiered "X" 75)
    = (metric.Healthy, {[ "X"%string := metric.SeverityMedium ]}) ∧
  metric.Evaluate (sampled tiered "X" 10) = (metric.Healthy, ∅).
Proof.
  intros result. unfold result, metric.evaluateConditions. simpl.
  split; [|split; [|split]].
  - intros pre c post -> Hc Hpre.
    rewrite foldl_app. simpl.
    apply foldl_applyCondition_keep, applyCondition_breached; [done|].
    by rewrite foldl_applyCondition_skip.
  - intros x Hx. by rewrite foldl_applyCondition_skip.
  - rewrite <- anyHigh_spec.
    destruct (metric.anyHigh _); split; (done || congruence).
  - repeat split; vm_compute; reflexivity.
Qed.

(** C7 on the tiered peer conditions of LoadEnabledMetrics: 12 peers pass
    the High threshold and are caught by the Medium one. *)
Lemma Evaluate_first_match_wins_witness :
  snd (metric.Evaluate (sampled (benchmark.peersConditions "Count") "Count" 12))
    !! "Count"%string = Some metric.SeverityMedium.
Proof.
  pose (high := metric.mkHealthCondition "Count"%string 5
                  metric.OperatorLessThanOrEqual metric.SeverityHigh).
  pose (medium := metric.mkHealthCondition "Count"%string 20
                    metric.OperatorLessThanOrEqual metric.SeverityMedium).
  pose (low := metric.mkHealthCondition "Count"%string 40
                 metric.OperatorLessThanOrEqual metric.SeverityLow).
  refine (proj1 (Evaluate_first_match_wins {[ "Count"%string := 12 ]}
                   (benchmark.peersConditions "Count"))
            [high] medium [low] eq_refl _ _).
  - exists 12. split; reflexivity.
  - intros c' Hin _ (v & Hv & Hc).
    apply list_elem_of_singleton in Hin. subst c'.
    vm_compute in Hv. injection Hv as <-. discriminate Hc.
Defined.

(** ** The latency collectors *)

Lemma requested_percentile (values : list Z) (p : Z) :
  p ∈ requested →
  zeroIndex 0 (metric.CalculatePercentiles values requested) p
  = metric.percentileOf (merge_sort Z.le values) p.
Proof. intros Hp. unfold zeroIndex. by rewrite CalculatePercentiles_lookup. Qed.

Lemma latencyKeys_requested (key : string) (p : Z) :
  (key, p) ∈ latencyKeys → p ∈ requested.
Proof.
  unfold latencyKeys, requested. rewrite !elem_of_cons, elem_of_nil.
  intros [?|[?|[?|[?|[?|[]]]]]]; simplify_eq; auto 10.
Qed.

Lemma cumulative_nil : cumulative [] [].
Proof. split; [done|]. intros i point key p Hi. by rewrite lookup_nil in Hi. Qed.

(** Appending the point computed from the extended durations keeps the
    store cumulative. *)
Lemma cumulative_snoc (points : list (metric.DataPoint Z)) (durations : list Z)
    (point : metric.DataPoint Z) (d : Z) :
  cumulative points durations →
  (∀ key p, (key, p) ∈ latencyKeys →
     metric.Values point !! key
     = Some (metric.percentileOf (merge_sort Z.le (durations ++ [d])) p)) →
  cumulative (points ++ [point]) (durations ++ [d]).
Proof.
  intros [Hlen Hold] Hnew. split.
  - rewrite !length_app. simpl. lia.
  - intros i q key p Hi Hkey.
    destruct (decide (i < length points)%nat) as [Hlt|Hge].
    + rewrite lookup_app_l in Hi by done.
      rewrite take_app_le by lia. by eapply Hold.
    + rewrite lookup_app_r in Hi by lia.
      destruct (i - length points)%nat as [|j] eqn:Hj; simpl in Hi;
        [|by rewrite lookup_nil in Hi].
      simplify_eq. assert (i = length durations) as -> by lia.
      rewrite take_ge by (rewrite length_app; simpl; lia). by apply Hnew.
Qed.

Lemma execution_writeMetric_values (now latency : Z) (l : execution.LatencyMetric.t)
    (key : string) (p : Z) :
  (key, p) ∈ latencyKeys →
  ∃ point,
    metric.DataPoints (execution.LatencyMetric.Base
                         (execution.LatencyMetric.writeMetric now latency l))
    = metric.DataPoints (execution.LatencyMetric.Base l) ++ [point] ∧
    metric.Timestamp point = now ∧
    metric.Values point !! key
    = Some (metric.percentileOf
              (merge_sort Z.le (execution.LatencyMetric.durations l)) p).
Proof.
  intros Hkey. eexists. split; [reflexivity|]. split; [reflexivity|].
  simpl. rewrite !requested_percentile by (unfold requested; rewrite !elem_of_cons; auto 10).
  unfold latencyKeys in Hkey. rewrite !elem_of_cons, elem_of_nil in Hkey.
  destruct Hkey as [?|[?|[?|[?|[?|[]]]]]]; simplify_eq; reflexivity.
Qed.

Lemma cumulative_last (points : list (metric.DataPoint Z)) (durations : list Z)
    (point : metric.DataPoint Z) (key : string) (p : Z) :
  cumulative points durations → last points = Some point → (key, p) ∈ latencyKeys →
  metric.Values point !! key = Some (metric.percentileOf (merge_sort Z.le durations) p).
Proof.
  intros [Hlen Hall] Hlast Hkey. rewrite last_lookup in Hlast.
  rewrite (Hall _ _ _ _ Hlast Hkey).
  assert (length points ≠ 0)%nat.
  { intros Hz. destruct points; [by rewrite lookup_nil in Hlast | done]. }
  rewrite take_ge; [done | lia].
Qed.

Section execution_latency.
Import execution.LatencyMetric.

Lemma execution_latency_Measure_snoc (ticks : list Tick) (k : Tick) (l : t) :
  Measure (ticks ++ [k]) l
  = (let '(l1, probes) := Measure ticks l in
     let '(l2, ps) := measure k l1 in (l2, probes ++ ps)).
Proof. unfold Measure. rewrite foldl_app. simpl. by destruct (foldl _ _ ticks). Qed.

Lemma execution_latency_measure_cumulative (k : Tick) (l : t) :
  cumulative (metric.DataPoints (Base l)) (durations l) →
  cumulative (metric.DataPoints (Base (measure k l).1)) (durations (measure k l).1) ∧
  durations (measure k l).1 = durations l ++ option_list (dial k).
Proof.
  intros Hinv. unfold measure. destruct (dial k) as [d|]; simpl.
  - split; [|done]. apply cumulative_snoc; [done|].
    intros key p Hkey. simpl.
    rewrite !requested_percentile by (unfold requested; rewrite !elem_of_cons; auto 10).
    unfold latencyKeys in Hkey. rewrite !elem_of_cons, elem_of_nil in Hkey.
    destruct Hkey as [?|[?|[?|[?|[?|[]]]]]]; simplify_eq; reflexivity.
  - by rewrite app_nil_r.
Qed.

Lemma execution_latency_Measure_cumulative (ticks : list Tick) (l : t) :
  cumulative (metric.DataPoints (Base l)) (durations l) →
  cumulative (metric.DataPoints (Base (Measure ticks l).1)) (durations (Measure ticks l).1) ∧
  durations (Measure ticks l).1 = durations l ++ omap dial ticks.
Proof.
  intros Hinv. induction ticks as [|k ticks [IHc IHd]] using rev_ind.
  - simpl. by rewrite app_nil_r.
  - rewrite execution_latency_Measure_snoc.
    destruct (Measure ticks l) as [l1 probes]. simpl in IHc, IHd.
    destruct (execution_latency_measure_cumulative k l1 IHc) as [Hc Hd].
    destruct (measure k l1) as [l2 ps]. simpl in *.
    split; [done|]. rewrite Hd, IHd, omap_app, <- app_assoc. simpl.
    by destruct (dial k).
Qed.

End execution_latency.

Section consensus_latency.
Import consensus.LatencyMetric.

Lemma consensus_latency_Measure_snoc (ticks : list Tick) (k : Tick) (l : t) :
  Measure (ticks ++ [k]) l
  = (let '(l1, probes) := Measure ticks l in
     let '(l2, ps) := measure k l1 in (l2, probes ++ ps)).
Proof. unfold Measure. rewrite foldl_app. simpl. by destruct (foldl _ _ ticks). Qed.

Lemma consensus_latency_measure_cumulative (k : Tick) (l : t) :
  cumulative (metric.DataPoints (Base l)) (durations l) →
  cumulative (metric.DataPoints (Base (measure k l).1)) (durations (measure k l).1) ∧
  durations (measure k l).1 = durations l ++ option_list (get k).
Proof.
  intros Hinv. unfold measure. destruct (get k) as [d|]; simpl.
  - split; [|done]. apply cumulative_snoc; [done|].
    intros key p Hkey. simpl.
    rewrite !requested_percentile by (unfold requested; rewrite !elem_of_cons; auto 10).
    unfold latencyKeys in Hkey. rewrite !elem_of_cons, elem_of_nil in Hkey.
    destruct Hkey as [?|[?|[?|[?|[?|[]]]]]]; simplify_eq; reflexivity.
  - by rewrite app_nil_r.
Qed.

Lemma consensus_latency_Measure_cumulative (ticks : list Tick) (l : t) :
  cumulative (metric.DataPoints (Base l)) (durations l) →
  cumulative (metric.DataPoints (Base (Measure ticks l).1)) (durations (Measure ticks l).1) ∧
  durations (Measure ticks l).1 = durations l ++ omap get ticks.
Proof.
  intros Hinv. induction ticks as [|k ticks [IHc IHd]] using rev_ind.
  - simpl. by rewrite app_nil_r.
  - rewrite consensus_latency_Measure_snoc.
    destruct (Measure ticks l) as [l1 probes]. simpl in IHc, IHd.
    destruct (consensus_latency_measure_cumulative k l1 IHc) as [Hc Hd].
    destruct (measure k l1) as [l2 ps]. simpl in *.
    split; [done|]. rewrite Hd, IHd, omap_app, <- app_assoc. simpl.
    by destruct (get k).
Qed.

End consensus_latency.

(** C10.  Every DataPoint a latency collector appends holds the
    min/p10/p50/p90/max over the durations collected up to that probe; the
    durations are those of the successful probes, in order; so the most
    recent DataPoint holds the percentiles over every successful probe of
    the run.  This holds of the execution and of the consensus collector. *)
Theorem latency_points_cumulative (host name : string) (interval : Z)
    (healthCondition : list (metric.HealthCondition Z))
    (ticksE : list execution.LatencyMetric.Tick)
    (ticksC : list consensus.LatencyMetric.Tick) :
  let e := (execution.LatencyMetric.Measure ticksE
              (execution.LatencyMetric.NewLatencyMetric host name interval healthCondition)).1 in
  let c := (consensus.LatencyMetric.Measure ticksC
              (consensus.LatencyMetric.NewLatencyMetric host name interval healthCondition)).1 in
  (execution.LatencyMetric.durations e = omap execution.LatencyMetric.dial ticksE ∧
   cumulative (metric.DataPoints (execution.LatencyMetric.Base e))
              (execution.LatencyMetric.durations e) ∧
   ∀ point key p,
     last (metric.DataPoints (execution.LatencyMetric.Base e)) = Some point →
     (key, p) ∈ latencyKeys →
     metric.Values point !! key
     = Some (metric.percentileOf
               (merge_sort Z.le (omap execution.LatencyMetric.dial ticksE)) p)) ∧
  (consensus.LatencyMetric.durations c = omap consensus.LatencyMetric.get ticksC ∧
   cumulative (metric.DataPoints (consensus.LatencyMetric.Base c))
              (consensus.LatencyMetric.durations c) ∧
   ∀ point key p,
     last (metric.DataPoints (consensus.LatencyMetric.Base c)) = Some point →
     (key, p) ∈ latencyKeys →
     metric.Values point !! key
     = Some (metric.percentileOf
               (merge_sort Z.le (omap consensus.LatencyMetric.get ticksC)) p)).
Proof.
  intros e c. split.
  - destruct (execution_latency_Measure_cumulative ticksE
                (execution.LatencyMetric.NewLatencyMetric host name interval healthCondition)
                cumulative_nil) as [Hc Hd].
    fold e in Hc, Hd. simpl in Hd. split; [done|]. split; [done|].
    intros point key p Hlast Hkey. rewrite <- Hd. by eapply cumulative_last.
  - destruct (consensus_latency_Measure_cumulative ticksC
                (consensus.LatencyMetric.NewLatencyMetric host name interval healthCondition)
                cumulative_nil) as [Hc Hd].
    fold c in Hc, Hd. simpl in Hd. split; [done|]. split; [done|].
    intros point key p Hlast Hkey. rewrite <- Hd. by eapply cumulative_last.
Qed.

(** ** The execution peer collector and its measuring errors *)

Section execution_peers.
Import execution.PeerMetric.

Lemma writeMetric_measuringErrors (now value : Z) (p : t) :
  measuringErrors (writeMetric now value p) = measuringErrors p.
Proof. done. Qed.

Lemma measure_measuringErrors (k : Tick) (p p' : t) (probes : list Probe) :
  measure k p = Returns (p', probes) →
  (emptyResult k ∧
   measuringErrors p' = <[PeerCountMeasurement := storedMessage]> (measuringErrors p)) ∨
  (¬ emptyResult k ∧ measuringErrors p' = measuringErrors p).
Proof.
  unfold measure, emptyResult. intros Hm.
  destruct (newRequestErr k) eqn:Hreq; [done|].
  destruct (doResult k) as [res|] eqn:Hdo; cycle 1.
  { injection Hm as <- _. right. split; [|done]. by intros (_ & res' & ? & _). }
  destruct (StatusCode res =? http_StatusOK) eqn:Hs; simpl in Hm; cycle 1.
  { injection Hm as <- _. right. split; [|done].
    intros (_ & res' & Hres & Hok & _). injection Hres as <-. lia. }
  destruct (decoded res) as [hex|] eqn:Hdec; cycle 1.
  { injection Hm as <- _. right. split; [|done].
    intros (_ & res' & Hres & _ & Hnone). injection Hres as <-. congruence. }
  case_bool_decide as Hhex.
  - left. subst hex. injection Hm as <- _. split; [|done].
    split; [done|]. exists res. split; [done|]. split; [lia | done].
  - right. split.
    { intros (_ & res' & Hres & _ & Hsome). injection Hres as <-. congruence. }
    destruct (sliceFrom2 hex) as [digits|]; [|done]. simpl in Hm.
    destruct (strconv_ParseInt digits 16); by injection Hm as <- _.
Qed.

Lemma stored_not_empty :
  ({[ PeerCountMeasurement := storedMessage ]} : gmap string string) ≠ ∅.
Proof. intros Hz. by apply (f_equal (λ m, m !! PeerCountMeasurement)) in Hz. Qed.

Lemma knownErrors_insert (m : gmap string string) :
  knownErrors m →
  <[PeerCountMeasurement := storedMessage]> m = {[ PeerCountMeasurement := storedMessage ]}.
Proof.
  intros [->| ->]; [apply insert_empty | apply insert_insert_eq].
Qed.

Lemma Measure_Returns (ticks : list Tick) (p : t) (r : t * list Probe) :
  Measure ticks p = Returns r → 0 < interval p ∧ loop ticks p = Returns r.
Proof.
  unfold Measure. destruct (Z.leb_spec (interval p) 0); [done|]. by split.
Qed.

Lemma loop_measuringErrors (ticks : list Tick) (p p' : t) (probes : list Probe) :
  loop ticks p = Returns (p', probes) →
  knownErrors (measuringErrors p) →
  knownErrors (measuringErrors p') ∧
  ((measuringErrors p ≠ ∅ ∨ ∃ k, k ∈ ticks ∧ emptyResult k) →
   measuringErrors p' = {[ PeerCountMeasurement := storedMessage ]}).
Proof.
  revert p probes. induction ticks as [|k ticks IH]; intros p probes Hrun Hknown.
  - simpl in Hrun. simplify_eq. split; [done|].
    intros [Hne|(k & Hk & _)]; [by destruct Hknown | by apply elem_of_nil in Hk].
  - simpl in Hrun.
    destruct (measure k p) as [[p1 probes1]|] eqn:Hk; [|done]. simpl in Hrun.
    destruct (loop ticks p1) as [[p2 probes2]|] eqn:Hrest; [|done].
    simpl in Hrun. simplify_eq.
    apply measure_measuringErrors in Hk.
    assert (knownErrors (measuringErrors p1)) as Hknown1.
    { destruct Hk as [[_ ->]|[_ ->]]; [|done]. right. by apply knownErrors_insert. }
    destruct (IH _ _ Hrest Hknown1) as [Hknown2 Hstays].
    split; [done|]. intros Hsome. apply Hstays.
    destruct Hk as [[Hempty Hp1]|[Hnot Hp1]].
    + left. rewrite Hp1, knownErrors_insert by done. apply stored_not_empty.
    + rewrite Hp1. destruct Hsome as [Hne|(k' & Hin & Hempty)]; [by left|].
      apply elem_of_cons in Hin as [->|Hin]; [done|]. right. by exists k'.
Qed.

Lemma Measure_measuringErrors (ticks : list Tick) (p p' : t) (probes : list Probe) :
  Measure ticks p = Returns (p', probes) →
  knownErrors (measuringErrors p) →
  knownErrors (measuringErrors p') ∧
  ((measuringErrors p ≠ ∅ ∨ ∃ k, k ∈ ticks ∧ emptyResult k) →
   measuringErrors p' = {[ PeerCountMeasurement := storedMessage ]}).
Proof.
  intros [_ Hrun]%Measure_Returns Hknown. by eapply loop_measuringErrors.
Qed.

(** Every order a range loop over the stored errors may take. *)
Lemma rangeOrder_knownErrors (m : gmap string string) (iter : list (string * string)) :
  knownErrors m → rangeOrder m iter →
  (m = ∅ ∧ iter = []) ∨
  (m = {[ PeerCountMeasurement := storedMessage ]} ∧
   iter = [(PeerCountMeasurement, storedMessage)]).
Proof.
  unfold rangeOrder. intros [->| ->] Hperm.
  - left. rewrite map_to_list_empty in Hperm. split; [done|].
    by apply Permutation_nil_r.
  - right. rewrite map_to_list_singleton in Hperm. split; [done|].
    by apply Permutation_singleton_r.
Qed.

End execution_peers.

(** C9.  Once a tick of the execution peer collector met an empty
    net_peerCount result, the error stays stored for the rest of the run,
    and AggregateResults returns its message, whatever was collected and
    whichever way the range loop runs. *)
Theorem execution_peers_aggregate_reports_error `{Formatter}
    (url name : string) (interval : Z) (healthCondition : list (metric.HealthCondition Z))
    (ticks : list execution.PeerMetric.Tick) (k : execution.PeerMetric.Tick)
    (p : execution.PeerMetric.t) (probes : list Probe) (iter : list (string * string))
    (Hrun : execution.PeerMetric.Measure ticks
              (execution.PeerMetric.NewPeerMetric url name interval healthCondition)
            = Returns (p, probes))
    (Htick : k ∈ ticks)
    (Hempty : emptyResult k)
    (Hiter : rangeOrder (execution.PeerMetric.measuringErrors p) iter) :
  execution.PeerMetric.AggregateResults iter p
  = ("UNABLE_TO_MEASURE" +:+ String (ascii_of_nat 10)
     "peer count RPC response was empty. Most likely net_peerCount RPC method is not supported").
Proof.
  apply Measure_measuringErrors in Hrun as [Hknown Hset]; [|by left].
  destruct (rangeOrder_knownErrors _ _ Hknown Hiter) as [[Hnone _]|[_ ->]].
  - rewrite Hset in Hnone by (right; by exists k). by destruct stored_not_empty.
  - reflexivity.
Qed.

Lemma peersRun_returns :
  execution.PeerMetric.Measure peersRun (benchmark.loadExecutionPeers "http://geth:8545")
  = Returns (afterPeersRun,
             replicate 3 (mkProbe "http://geth:8545" (Some (5 * time_Second)))).
Proof. vm_compute. reflexivity. Qed.

Lemma peersRun_rangeOrder :
  rangeOrder (execution.PeerMetric.measuringErrors afterPeersRun)
    [(execution.PeerMetric.PeerCountMeasurement, storedMessage)].
Proof.
  unfold rangeOrder.
  replace (execution.PeerMetric.measuringErrors afterPeersRun)
    with ({[ execution.PeerMetric.PeerCountMeasurement := storedMessage ]} : gmap string string)
    by (vm_compute; reflexivity).
  by rewrite map_to_list_singleton.
Qed.

(** C9 on a run whose second tick met the empty result. *)
Lemma execution_peers_aggregate_reports_error_witness :
  execution.PeerMetric.AggregateResults (H := plainFormatter)
    [(execution.PeerMetric.PeerCountMeasurement, storedMessage)] afterPeersRun
  = ("UNABLE_TO_MEASURE" +:+ String (ascii_of_nat 10)
     "peer count RPC response was empty. Most likely net_peerCount RPC method is not supported").
Proof.
  eapply (@execution_peers_aggregate_reports_error plainFormatter
            "http://geth:8545" "Peers" (time_Second * 10)
            (benchmark.peersConditions execution.PeerMetric.PeerCountMeasurement)
            peersRun
            (execution.PeerMetric.mkTick false (Some (mkResponse 200 (Some ""%string))) 20)).
  - exact peersRun_returns.
  - unfold peersRun. rewrite !elem_of_cons. auto.
  - split; [reflexivity|]. eexists. split; [reflexivity|]. split; reflexivity.
  - exact peersRun_rangeOrder.
Defined.

(** ** AggregateResults called twice *)

(** C8 at its failing input.  The execution latency collector of
    LoadEnabledMetrics, whose Measure has returned after two failed dials,
    holds an empty store: a call of AggregateResults yields the panic and
    nothing else, so two calls yield no string at all. *)
Theorem AggregateResults_twice_without_a_string `{Formatter} :
  measured (ExecutionLatency unreachableLatency) ∧
  storeEmpty (ExecutionLatency unreachableLatency) ∧
  ∀ first second,
    aggregates (ExecutionLatency unreachableLatency) first →
    aggregates (ExecutionLatency unreachableLatency) second →
    first = Panic "index out of range [-1]" ∧
    second = Panic "index out of range [-1]" ∧
    ¬ ∃ s, first = Returns s ∧ second = Returns s.
Proof.
  split; [|split].
  - apply (measured_execution_latency "geth:8545" "Latency" (time_Second * 3)
             (benchmark.latencyConditions execution.LatencyMetric.DurationP90Measurement)
             [execution.LatencyMetric.mkTick None 1; execution.LatencyMetric.mkTick None 2]).
    by vm_compute.
  - reflexivity.
  - intros first second Hfirst Hsecond. simpl in Hfirst, Hsecond.
    assert (execution.LatencyMetric.AggregateResults unreachableLatency
            = Panic "index out of range [-1]") as Hpanic by reflexivity.
    rewrite Hpanic in Hfirst, Hsecond. subst first second.
    split; [reflexivity|]. split; [reflexivity|].
    intros (s & Hs & _). discriminate Hs.
Qed.

(** X14.  The summary of the execution peer collector does not depend on
    the order in which the range loop of AggregateResults visits
    [measuringErrors]: after any run of Measure that returned, the map
    holds at most one entry, so the loop has one order to take and two
    calls yield the same string. *)
Theorem execution_peers_aggregate_any_order `{Formatter}
    (url name : string) (interval : Z) (healthCondition : list (metric.HealthCondition Z))
    (ticks : list execution.PeerMetric.Tick)
    (p : execution.PeerMetric.t) (probes : list Probe)
    (first second : list (string * string))
    (Hrun : execution.PeerMetric.Measure ticks
              (execution.PeerMetric.NewPeerMetric url name interval healthCondition)
            = Returns (p, probes))
    (Hfirst : rangeOrder (execution.PeerMetric.measuringErrors p) first)
    (Hsecond : rangeOrder (execution.PeerMetric.measuringErrors p) second) :
  (length first ≤ 1)%nat ∧
  first = second ∧
  execution.PeerMetric.AggregateResults first p
  = execution.PeerMetric.AggregateResults second p.
Proof.
  apply Measure_measuringErrors in Hrun as [Hknown _]; [|by left].
  destruct (rangeOrder_knownErrors _ _ Hknown Hfirst) as [[He1 ->]|[Hs1 ->]],
           (rangeOrder_knownErrors _ _ Hknown Hsecond) as [[He2 ->]|[Hs2 ->]];
    try (by repeat split; simpl; lia).
  - rewrite He1 in Hs2. by destruct (stored_not_empty).
  - rewrite He2 in Hs1. by destruct (stored_not_empty).
Qed.

(** X14 on the run with an empty result in its middle. *)
Lemma execution_peers_aggregate_any_order_witness :
  let order := [(execution.PeerMetric.PeerCountMeasurement, storedMessage)] in
  (length order ≤ 1)%nat ∧
  order = order ∧
  execution.PeerMetric.AggregateResults (H := plainFormatter) order afterPeersRun
  = execution.PeerMetric.AggregateResults (H := plainFormatter) order afterPeersRun.
Proof.
  exact (@execution_peers_aggregate_any_order plainFormatter
           "http://geth:8545" "Peers" (time_Second * 10)
           (benchmark.peersConditions execution.PeerMetric.PeerCountMeasurement)
           peersRun afterPeersRun _
           [(execution.PeerMetric.PeerCountMeasurement, storedMessage)]
           [(execution.PeerMetric.PeerCountMeasurement, storedMessage)]
           peersRun_returns peersRun_rangeOrder peersRun_rangeOrder).
Defined.

(** ** Probes and DataPoints per tick *)

Section per_tick.

Lemma sliceFrom2_panics (s : string) :
  (∃ msg, sliceFrom2 s = Panic msg) ↔ s = ""%string ∨ ∃ c, s = String c EmptyString.
Proof.
  destruct s as [|c [|c' rest]]; simpl; split.
  - by left.
  - by eexists.
  - right. by eexists.
  - by eexists.
  - by intros [msg Hmsg].
  - by intros [|[c0 Hc]].
Qed.

Lemma execution_peers_measure_panics (k : execution.PeerMetric.Tick)
    (p : execution.PeerMetric.t) :
  (∃ msg, execution.PeerMetric.measure k p = Panic msg) ↔ crashes k.
Proof.
  unfold execution.PeerMetric.measure, crashes.
  destruct (execution.PeerMetric.newRequestErr k).
  { split; [by left | by eexists]. }
  destruct (execution.PeerMetric.doResult k) as [res|].
  2: { split; [by intros [msg Hmsg] | by intros [|(res & c & ? & _)]]. }
  destruct (Z.eqb_spec (StatusCode res) http_StatusOK) as [Hok|Hok]; simpl.
  2: { split; [by intros [msg Hmsg] | intros [|(res' & c & Hres & Hok' & _)]; [done|]].
       by injection Hres as <-. }
  destruct (decoded res) as [hex|] eqn:Hhex.
  2: { split; [by intros [msg Hmsg] | intros [|(res' & c & Hres & _ & Hdec)]; [done|]].
       injection Hres as <-. congruence. }
  case_bool_decide as Hempty.
  { subst hex. split; [by intros [msg Hmsg] | intros [|(res' & c & Hres & _ & Hdec)]; [done|]].
    injection Hres as <-. congruence. }
  split.
  - intros [msg Hmsg]. right.
    destruct (sliceFrom2 hex) as [digits|msg'] eqn:Hslice.
    + simpl in Hmsg. by destruct (strconv_ParseInt digits 16).
    + destruct (proj1 (sliceFrom2_panics hex)) as [->|[c ->]]; [by eexists|done|].
      by exists res, c.
  - intros [|(res' & c & Hres & _ & Hdec)]; [done|].
    injection Hres as <-. rewrite Hhex in Hdec. injection Hdec as ->.
    simpl. by eexists.
Qed.

Lemma execution_peers_measure_point (k : execution.PeerMetric.Tick)
    (p p' : execution.PeerMetric.t) (probes : list Probe) :
  execution.PeerMetric.measure k p = Returns (p', probes) →
  probes = [mkProbe (execution.PeerMetric.url p) (Some (5 * time_Second))] ∧
  execution.PeerMetric.url p' = execution.PeerMetric.url p ∧
  execution.PeerMetric.interval p' = execution.PeerMetric.interval p ∧
  ∃ v, metric.DataPoints (execution.PeerMetric.Base p')
       = metric.DataPoints (execution.PeerMetric.Base p)
         ++ [metric.mkDataPoint (execution.PeerMetric.now k)
               {[ execution.PeerMetric.PeerCountMeasurement := v ]}] ∧
       (v = 0 ∨
        ∃ res hex digits n,
          execution.PeerMetric.doResult k = Some res ∧ StatusCode res = http_StatusOK ∧
          decoded res = Some hex ∧ sliceFrom2 hex = Returns digits ∧
          strconv_ParseInt digits 16 = Some n ∧ v = uint32 n).
Proof.
  unfold execution.PeerMetric.measure. intros Hm.
  destruct (execution.PeerMetric.newRequestErr k); [done|].
  destruct (execution.PeerMetric.doResult k) as [res|] eqn:Hdo; cycle 1.
  { injection Hm as <- <-. repeat split. exists 0. split; [done | by left]. }
  destruct (StatusCode res =? http_StatusOK) eqn:Hs; simpl in Hm; cycle 1.
  { injection Hm as <- <-. repeat split. exists 0. split; [done | by left]. }
  destruct (decoded res) as [hex|] eqn:Hdec; cycle 1.
  { injection Hm as <- <-. repeat split. exists 0. split; [done | by left]. }
  case_bool_decide as Hhex.
  { injection Hm as <- <-. repeat split. exists 0. split; [done | by left]. }
  destruct (sliceFrom2 hex) as [digits|] eqn:Hslice; [|done]. simpl in Hm.
  destruct (strconv_ParseInt digits 16) as [n|] eqn:Hparse.
  - injection Hm as <- <-. repeat split. exists (uint32 n). split; [done|].
    right. exists res, hex, digits, n. repeat split; try done. lia.
  - injection Hm as <- <-. repeat split. exists 0. split; [done | by left].
Qed.


Lemma client_tick_points (k : consensus.ClientMetric.Tick) (c : consensus.ClientMetric.t) :
  (consensus.ClientMetric.tick k c).2
  = [ mkProbe (consensus.ClientMetric.url c +:+ "/eth/v1/node/health") None;
      mkProbe (consensus.ClientMetric.url c +:+ "/eth/v1/node/version") None;
      mkProbe (consensus.ClientMetric.url c +:+ "/eth/v1/node/syncing") None;
      mkProbe (consensus.ClientMetric.url c +:+ "/eth/v1/node/health") None ] ∧
  ∃ h v s l,
    metric.DataPoints (consensus.ClientMetric.Base (consensus.ClientMetric.tick k c).1)
    = metric.DataPoints (consensus.ClientMetric.Base c)
      ++ [ metric.mkDataPoint (consensus.ClientMetric.now (consensus.ClientMetric.health k))
             {[ consensus.ClientMetric.NodeHealthMeasurement := h ]};
           metric.mkDataPoint (consensus.ClientMetric.now (consensus.ClientMetric.version k))
             {[ consensus.ClientMetric.VersionMeasurement := v ]};
           metric.mkDataPoint (consensus.ClientMetric.now (consensus.ClientMetric.syncing k))
             {[ consensus.ClientMetric.SyncStatusMeasurement := s ]};
           metric.mkDataPoint (consensus.ClientMetric.now (consensus.ClientMetric.latency k))
             {[ consensus.ClientMetric.LatencyMeasurement := l ]} ].
Proof.
  unfold consensus.ClientMetric.tick, consensus.ClientMetric.measureNodeHealth,
    consensus.ClientMetric.measureNodeVersion, consensus.ClientMetric.measureSyncStatus,
    consensus.ClientMetric.measureLatency.
  destruct k as [[rh nh] [rv nv] [rs ns] [rl nl] ms]. simpl.
  destruct rh as [[sh dh]|], rv as [[sv dv]|], rs as [[ss ds]|], rl as [[sl dl]|]; simpl;
    repeat match goal with
           | |- context [?a =? ?b] => destruct (a =? b); simpl
           | |- context [match ?d with Some _ => _ | None => _ end] => destruct d; simpl
           end;
    (split; [reflexivity|]); do 4 eexists; rewrite <- !app_assoc; reflexivity.
Qed.

(** *** What each probe writes *)








End per_tick.

(** ** The probes of a whole run *)

Section run_probes.



Lemma execution_peers_loop_probes (ticks : list execution.PeerMetric.Tick)
    (p p' : execution.PeerMetric.t) (probes : list Probe) :
  execution.PeerMetric.loop ticks p = Returns (p', probes) →
  execution.PeerMetric.url p' = execution.PeerMetric.url p ∧
  execution.PeerMetric.interval p' = execution.PeerMetric.interval p ∧
  length probes = length ticks ∧
  length (metric.DataPoints (execution.PeerMetric.Base p'))
  = (length (metric.DataPoints (execution.PeerMetric.Base p)) + length ticks)%nat ∧
  Forall (λ probe, probe = mkProbe (execution.PeerMetric.url p) (Some (5 * time_Second)))
         probes.
Proof.
  revert p probes. induction ticks as [|k ticks IH]; intros p probes Hrun; simpl in Hrun.
  - injection Hrun as <- <-. repeat split; simpl; [lia | constructor].
  - destruct (execution.PeerMetric.measure k p) as [[p1 probes1]|] eqn:Hk; [|done].
    simpl in Hrun.
    destruct (execution.PeerMetric.loop ticks p1) as [[p2 probes2]|] eqn:Hrest; [|done].
    simpl in Hrun. injection Hrun as <- <-.
    apply execution_peers_measure_point in Hk as (Hp1 & Hu & Hi & v & Hpoints & _).
    destruct (IH _ _ Hrest) as (Hu2 & Hi2 & Hlen & Hcount & Hall).
    split; [congruence|]. split; [congruence|].
    split; [rewrite length_app, Hlen, Hp1; simpl; lia|].
    split; [rewrite Hcount, Hpoints, length_app; simpl; lia|].
    apply Forall_app. split; [rewrite Hp1; by repeat constructor | by rewrite <- Hu].
Qed.

Lemma execution_peers_Measure_probes (ticks : list execution.PeerMetric.Tick)
    (p p' : execution.PeerMetric.t) (probes : list Probe) :
  execution.PeerMetric.Measure ticks p = Returns (p', probes) →
  execution.PeerMetric.url p' = execution.PeerMetric.url p ∧
  execution.PeerMetric.interval p' = execution.PeerMetric.interval p ∧
  length probes = length ticks ∧
  length (metric.DataPoints (execution.PeerMetric.Base p'))
  = (length (metric.DataPoints (execution.PeerMetric.Base p)) + length ticks)%nat ∧
  Forall (λ probe, probe = mkProbe (execution.PeerMetric.url p) (Some (5 * time_Second)))
         probes.
Proof.
  intros [_ Hrun]%Measure_Returns. by apply execution_peers_loop_probes in Hrun.
Qed.




Lemma client_Measure_snoc (ticks : list consensus.ClientMetric.Tick)
    (k : consensus.ClientMetric.Tick) (c : consensus.ClientMetric.t) :
  consensus.ClientMetric.Measure (ticks ++ [k]) c
  = (let '(c1, probes) := consensus.ClientMetric.Measure ticks c in
     let '(c2, ps) := consensus.ClientMetric.tick k c1 in (c2, probes ++ ps)).
Proof.
  unfold consensus.ClientMetric.Measure. rewrite foldl_app. simpl.
  by destruct (foldl _ _ ticks).
Qed.

Lemma client_Measure_measureInterval (ticks : list consensus.ClientMetric.Tick)
    (c : consensus.ClientMetric.t) :
  consensus.ClientMetric.measureInterval (consensus.ClientMetric.Measure ticks c).1
  = consensus.ClientMetric.measureInterval c.
Proof.
  induction ticks as [|k ticks IH] using rev_ind; [done|].
  rewrite client_Measure_snoc.
  destruct (consensus.ClientMetric.Measure ticks c) as [c1 probes]. simpl in IH.
  rewrite <- IH. unfold consensus.ClientMetric.tick,
    consensus.ClientMetric.measureNodeHealth, consensus.ClientMetric.measureNodeVersion,
    consensus.ClientMetric.measureSyncStatus, consensus.ClientMetric.measureLatency.
  repeat match goal with
         | |- context [match ?d with Some _ => _ | None => _ end] => destruct d; simpl
         | |- context [if ?b then _ else _] => destruct b; simpl
         end; reflexivity.
Qed.

Lemma client_Measure_counts (ticks : list consensus.ClientMetric.Tick)
    (c : consensus.ClientMetric.t) :
  let r := consensus.ClientMetric.Measure ticks c in
  length r.2 = (4 * length ticks)%nat ∧
  length (metric.DataPoints (consensus.ClientMetric.Base r.1))
  = (length (metric.DataPoints (consensus.ClientMetric.Base c)) + 4 * length ticks)%nat ∧
  Forall (λ probe, timeout_of probe = None) r.2.
Proof.
  induction ticks as [|k ticks IH] using rev_ind; [simpl; repeat split; [lia | constructor]|].
  cbv zeta in *. rewrite client_Measure_snoc.
  destruct (consensus.ClientMetric.Measure ticks c) as [c1 probes].
  destruct IH as (Hprobes & Hpoints & Hnone). simpl in *.
  destruct (client_tick_points k c1) as (Hps & h & v & s' & l & Hdp).
  destruct (consensus.ClientMetric.tick k c1) as [c2 ps]. simpl in *.
  rewrite !length_app, Hps, Hdp, !length_app, Hprobes, Hpoints, Forall_app. simpl.
  repeat split; try lia; [done | by repeat constructor].
Qed.


End run_probes.



(** ** Probe timeouts *)

Lemma float64_round_spec (n e : Z) :
  0 ≤ n →
  ∃ s, 0 ≤ s ∧ (float64_round n e).2 = e + s ∧
       (n < 2 ^ 53 → s = 0 ∧ (float64_round n e).1 = n) ∧
       15 * n ≤ 16 * ((float64_round n e).1 * 2 ^ s) ≤ 17 * n.
Proof.
  intros Hn. unfold float64_round.
  destruct (Z.leb_spec (Z.log2 n + 1) 53) as [Hsmall|Hbig].
  - exists 0. simpl. rewrite Z.add_0_r. repeat split; lia.
  - assert (0 < n) as Hpos.
    { destruct (Z.eq_dec n 0) as [->|]; [simpl in Hbig; lia | lia]. }
    destruct (Z.log2_spec n Hpos) as [Hlo Hhi].
    set (s := Z.log2 n + 1 - 53) in *.
    assert (0 < s) as Hs by lia.
    exists s. cbn [fst snd].
    assert (0 < 2 ^ s) as Hp by (apply Z.pow_pos_nonneg; lia).
    assert (2 ^ Z.log2 n = 2 ^ 52 * 2 ^ s) as Hsplit.
    { rewrite <- Z.pow_add_r by lia. f_equal. lia. }
    split; [lia|]. split; [done|]. split.
    { intros Hlt. exfalso.
      assert (2 ^ 53 ≤ 2 ^ Z.log2 n); [apply Z.pow_le_mono_r; lia | lia]. }
    pose proof (Z.div_mod n (2 ^ s) ltac:(lia)) as Hdm.
    pose proof (Z.mod_pos_bound n (2 ^ s) Hp) as Hr.
    set (q := n / 2 ^ s) in *. set (r := n mod 2 ^ s) in *.
    assert (16 * 2 ^ s ≤ n) as Hrel.
    { assert (16 ≤ 2 ^ 52) by (by vm_compute). nia. }
    destruct (r <? 2 ^ (s - 1)); [nia|].
    destruct (2 ^ (s - 1) <? r); [nia|].
    destruct (Z.even q); nia.
Qed.

Lemma threeQuarters_exact (interval : Z) :
  0 ≤ interval → 3 * interval < 2 ^ 53 →
  execution.LatencyMetric.threeQuarters interval = interval * 3 / 4.
Proof.
  intros Hnn Hsmall. unfold execution.LatencyMetric.threeQuarters.
  rewrite Z.abs_eq by done.
  destruct (float64_round_spec interval 0 Hnn) as (s1 & _ & He1 & Hex1 & _).
  destruct (Hex1 ltac:(lia)) as [-> Hm1].
  destruct (float64_round interval 0) as [m e]. simpl in He1, Hm1. subst m e.
  change (0 + 0 - 2) with (-2).
  destruct (float64_round_spec (interval * 3) (-2) ltac:(lia)) as (s2 & _ & He2 & Hex2 & _).
  destruct (Hex2 ltac:(lia)) as [-> Hm2].
  destruct (float64_round (interval * 3) (-2)) as [m' e']. simpl in He2, Hm2. subst m' e'.
  simpl. destruct (Z.eq_dec interval 0) as [->|]; [done|].
  rewrite Z.sgn_pos by lia. change (2 ^ (- (-2 + 0))) with 4. lia.
Qed.


(** Below 2^53 / 3 ns (about 34 days) nothing is rounded; above, the
    result may differ from the exact quotient. *)
Example threeQuarters_rounds :
  execution.LatencyMetric.threeQuarters (2 ^ 53 + 3) = 6755399441055747 ∧
  Z.quot ((2 ^ 53 + 3) * 3) 4 = 6755399441055746 ∧
  execution.LatencyMetric.threeQuarters (3 * 10 ^ 9) = 2250000000.
Proof. by vm_compute. Qed.


(** C6 at its failing input.  The consensus client collector bounds none
    of its probes: each of the four requests of a tick goes through
    [http.Get], the default client, which has no timeout, and the context
    of Measure is not handed on.  Whatever interval the collector was
    constructed with, no probe of any run carries a timeout, within the
    interval or not. *)
Theorem client_probes_carry_no_timeout (url name : string)
    (healthCondition : list (metric.HealthCondition string)) (measureInterval : Z)
    (ticks : list consensus.ClientMetric.Tick) :
  let r := consensus.ClientMetric.Measure ticks
             (consensus.ClientMetric.NewClientMetric url name healthCondition
                measureInterval) in
  consensus.ClientMetric.measureInterval r.1 = measureInterval ∧
  length r.2 = (4 * length ticks)%nat ∧
  Forall (λ probe, timeout_of probe = None ∧
                   ¬ withinInterval (consensus.ClientMetric.measureInterval r.1) probe)
         r.2.
Proof.
  cbv zeta.
  destruct (client_Measure_counts ticks
              (consensus.ClientMetric.NewClientMetric url name healthCondition
                 measureInterval)) as (Hprobes & _ & Hnone).
  split; [apply client_Measure_measureInterval|]. split; [exact Hprobes|].
  eapply Forall_impl; [exact Hnone|]. intros probe Hprobe.
  split; [exact Hprobe|]. intros (t & Ht & _). congruence.
Qed.



(** ** The orchestrator and its goroutines *)

Section orchestration.
Import benchmark.

Lemma snoc_split (tr pre post : list event) (e e' : event) :
  tr ++ [e'] = pre ++ e :: post →
  (post = [] ∧ pre = tr ∧ e = e') ∨ (∃ post', post = post' ++ [e'] ∧ tr = pre ++ e :: post').
Proof.
  intros Heq. destruct post as [|x post _] using rev_ind.
  - left. apply app_inj_tail in Heq as [-> ->]. done.
  - right. exists post.
    change (pre ++ e :: post ++ [x]) with (pre ++ (e :: post) ++ [x]) in Heq.
    rewrite app_assoc in Heq. by apply app_inj_tail in Heq as [-> ->].
Qed.

Lemma before_nil (a b : event) : before a b [].
Proof. intros pre post Heq. by destruct pre. Qed.

Lemma before_snoc (a b e' : event) (tr : list event) :
  before a b tr → (b = e' → a ∈ tr) → before a b (tr ++ [e']).
Proof.
  intros Hold Hnew pre post Heq.
  apply snoc_split in Heq as [(-> & -> & ->)|(post' & -> & ->)]; [by apply Hnew|].
  by eapply Hold.
Qed.

Lemma invariant_initial (n : nat) (launchOrder : list nat) :
  invariant launchOrder (initial n launchOrder).
Proof.
  repeat split; simpl; try done; auto using before_nil.
Qed.

Lemma invariant_step (launchOrder evalOrder : list nat) (w w' : world) :
  invariant launchOrder w → step evalOrder w w' → invariant launchOrder w'.
Proof.
  intros (Hdone & Hpast & Hlaunch & Hreads) Hstep.
  destruct Hstep as [d ts i rest tr|d ts tr|ts o tr|d ts o tr i Hi|ts o tr i Hi|ts tr
                    |d ts i rest tr|d ts i rest tr|d ts tr]; simpl in *.
  - (* launch *)
    split; [intros Hd; apply elem_of_app; left; auto|]. split; [done|]. split.
    + intros j Hj. destruct (Hlaunch j Hj) as [Hin|Hin].
      * apply elem_of_cons in Hin as [->|Hin]; [right|by left].
        apply elem_of_app. right. by left.
      * right. apply elem_of_app. by left.
    + intros i' e He. destruct (Hreads i' e He) as [Hc Hl]. split.
      * apply before_snoc; [done|]. intros ->. by destruct He.
      * intros j Hj. apply before_snoc; [by apply Hl|]. intros ->. by destruct He.
  - (* the first loop is over *)
    split; [done|]. split; [done|]. split; [|done].
    intros j Hj. destruct (Hlaunch j Hj) as [Hin|Hin]; [by apply elem_of_nil in Hin | done].
  - (* cancel *)
    assert (Cancel ∈ tr ++ [Cancel]) by (apply elem_of_app; right; by left).
    split; [done|]. split; [done|]. split.
    + intros j Hj. specialize (Hlaunch j Hj).
      destruct o; try (apply elem_of_app; by left).
      destruct Hlaunch; [by left | right; apply elem_of_app; by left].
    + intros i' e He. destruct (Hreads i' e He) as [Hc Hl]. split.
      * apply before_snoc; [done|]. intros ->. by destruct He.
      * intros j Hj. apply before_snoc; [by apply Hl|]. intros ->. by destruct He.
  - (* tick *)
    split; [intros Hd; apply elem_of_app; left; auto|].
    split; [intros Hp; apply elem_of_app; left; auto|]. split.
    + intros j Hj. specialize (Hlaunch j Hj).
      destruct o; try (apply elem_of_app; by left).
      destruct Hlaunch; [by left | right; apply elem_of_app; by left].
    + intros i' e He. destruct (Hreads i' e He) as [Hc Hl]. split.
      * apply before_snoc; [done|]. intros ->. by destruct He.
      * intros j Hj. apply before_snoc; [by apply Hl|]. intros ->. by destruct He.
  - (* a collector returns *)
    split; [intros Hd; apply elem_of_app; left; auto|].
    split; [intros Hp; apply elem_of_app; left; auto|]. split.
    + intros j Hj. specialize (Hlaunch j Hj).
      destruct o; try (apply elem_of_app; by left).
      destruct Hlaunch; [by left | right; apply elem_of_app; by left].
    + intros i' e He. destruct (Hreads i' e He) as [Hc Hl]. split.
      * apply before_snoc; [done|]. intros ->. by destruct He.
      * intros j Hj. apply before_snoc; [by apply Hl|]. intros ->. by destruct He.
  - (* the context is done *)
    split; [done|]. split; [auto|]. split; done.
  - (* EvaluateMetric *)
    split; [intros Hd; apply elem_of_app; left; auto|].
    split; [intros Hp; apply elem_of_app; left; auto|]. split.
    + intros j Hj. apply elem_of_app. left. by apply Hlaunch.
    + intros i' e He. destruct (Hreads i' e He) as [Hc Hl]. split.
      * apply before_snoc; [done|]. intros _. by apply Hpast.
      * intros j Hj. apply before_snoc; [by apply Hl|]. intros _. by apply Hlaunch.
  - (* AggregateResults, AddRecord *)
    change (tr ++ [AggregateResultsCall i; AddRecordCall i])
      with (tr ++ [AggregateResultsCall i] ++ [AddRecordCall i]).
    rewrite app_assoc.
    assert (Cancel ∈ tr) by by apply Hpast.
    unfold invariant. simpl.
    split; [intros Hd; rewrite !elem_of_app; auto|].
    split; [intros Hp; rewrite !elem_of_app; auto|]. split.
    + intros j Hj. rewrite !elem_of_app. left. left. by apply Hlaunch.
    + intros i' e He. destruct (Hreads i' e He) as [Hc Hl]. split.
      * apply before_snoc; [apply before_snoc; [done|]; intros _; done|].
        intros ->. by destruct He.
      * intros j Hj.
        apply before_snoc; [apply before_snoc; [by apply Hl|]; intros _; by apply Hlaunch|].
        intros ->. by destruct He.
  - (* Render *)
    split; [intros Hd; apply elem_of_app; left; auto|].
    split; [intros Hp; apply elem_of_app; left; auto|]. split.
    + intros j Hj. apply elem_of_app. left. by apply Hlaunch.
    + intros i' e He. destruct (Hreads i' e He) as [Hc Hl]. split.
      * apply before_snoc; [done|]. intros ->. by destruct He.
      * intros j Hj. apply before_snoc; [by apply Hl|]. intros ->. by destruct He.
Qed.

Lemma invariant_execution (n : nat) (launchOrder evalOrder : list nat) (w : world) :
  execution n launchOrder evalOrder w → invariant launchOrder w.
Proof.
  unfold execution. intros Hrun.
  eapply (rtc_ind_r (invariant launchOrder)); [apply invariant_initial| |exact Hrun].
  intros w1 w2 _ Hstep IH. by eapply invariant_step.
Qed.

End orchestration.

Lemma racyWorld_execution : benchmark.execution 1 [0%nat] [0%nat] racyWorld.
Proof.
  unfold benchmark.execution, benchmark.initial, racyWorld.
  eapply rtc_l; [apply benchmark.step_launch|]. simpl.
  eapply rtc_l; [apply benchmark.step_launched|].
  eapply rtc_l; [apply benchmark.step_cancel|]. simpl.
  eapply rtc_l; [apply benchmark.step_done|].
  eapply rtc_l; [apply benchmark.step_evaluate|]. simpl.
  eapply rtc_l; [apply (benchmark.step_tick _ _ _ _ _ 0%nat); reflexivity|]. simpl.
  apply rtc_refl.
Qed.

(** C1 as stated, "no store is read before its collector's Measure has
    returned", fails: Start waits for the cancellation only. *)
Lemma join_before_reading_counterexample : ¬ joinsBeforeReading 1 [0%nat] [0%nat].
Proof.
  intros Hjoin.
  specialize (Hjoin racyWorld racyWorld_execution 0%nat (benchmark.EvaluateMetricCall 0)
                (or_introl eq_refl) [benchmark.Launch 0; benchmark.Cancel]
                [benchmark.StoreWrite 0] eq_refl).
  rewrite !elem_of_cons, elem_of_nil in Hjoin.
  destruct Hjoin as [?|[?|[]]]; discriminate.
Qed.

(** C1, as Start has it.  In every execution of Service.Start, each call
    of EvaluateMetric or AggregateResults comes after the cancellation of
    the context and after every collector's Measure was launched. *)
Theorem reads_follow_cancellation (n : nat) (launchOrder evalOrder : list nat)
    (w : benchmark.world) (i : nat) (e : benchmark.event)
    (Hrun : benchmark.execution n launchOrder evalOrder w)
    (Hread : benchmark.readsStore i e) :
  before benchmark.Cancel e (benchmark.trace w) ∧
  ∀ j, j ∈ launchOrder → before (benchmark.Launch j) e (benchmark.trace w).
Proof.
  apply invariant_execution in Hrun as (_ & _ & _ & Hreads). by eapply Hreads.
Qed.

(** C1, as Start has it, on the execution that reaches [racyWorld]. *)
Lemma reads_follow_cancellation_witness :
  before benchmark.Cancel (benchmark.EvaluateMetricCall 0) (benchmark.trace racyWorld) ∧
  ∀ j, j ∈ [0%nat] →
    before (benchmark.Launch j) (benchmark.EvaluateMetricCall 0) (benchmark.trace racyWorld).
Proof.
  exact (reads_follow_cancellation 1 [0%nat] [0%nat] racyWorld 0
           (benchmark.EvaluateMetricCall 0) racyWorld_execution (or_introl eq_refl)).
Defined.

(** ** The Evaluating phase *)

Section evaluating.
Import benchmark.

Lemma evaluateGroup_answers (g : metric.Group) (ms : list metricService) (sink : report.t) :
  Forall answers ms →
  ∃ sink', evaluateGroup g ms sink = (sink', Returns ()) ∧
           report.renders sink' = report.renders sink ∧
           report.MetricName <$> report.records sink'
           = (report.MetricName <$> report.records sink) ++ (GetName <$> ms) ∧
           report.GroupName <$> report.records sink'
           = (report.GroupName <$> report.records sink) ++ ((λ _, g) <$> ms).
Proof.
  intros Hall. revert sink. induction Hall as [|m ms [[[h s] Hv] [v Ha]] _ IH]; intros sink.
  - exists sink. simpl. by rewrite !app_nil_r.
  - simpl. rewrite Hv, Ha.
    destruct (IH (report.AddRecord (report.mkRecord g (GetName m) v h s) sink))
      as (sink' & -> & Hr & Hn & Hg).
    exists sink'. split; [done|]. split; [done|].
    rewrite Hn, Hg. simpl. by rewrite !fmap_app, <- !app_assoc.
Qed.

Lemma evaluateGroups_answers (iter : list (metric.Group * list metricService))
    (sink : report.t) :
  Forall answers (enabled iter) →
  ∃ sink', evaluateGroups iter sink = (sink', Returns ()) ∧
           report.renders sink' = report.renders sink ∧
           report.MetricName <$> report.records sink'
           = (report.MetricName <$> report.records sink) ++ (GetName <$> enabled iter).
Proof.
  revert sink. induction iter as [|[g ms] iter IH]; intros sink Hall.
  - exists sink. simpl. by rewrite app_nil_r.
  - unfold enabled in Hall. simpl in Hall. apply Forall_app in Hall as [Hms Hrest].
    destruct (evaluateGroup_answers g ms sink Hms) as (sink1 & Hrun1 & Hr1 & Hn1 & _).
    destruct (IH sink1 Hrest) as (sink2 & Hrun2 & Hr2 & Hn2).
    exists sink2. simpl. rewrite Hrun1, Hrun2. split; [done|]. split; [congruence|].
    rewrite Hn2, Hn1. unfold enabled. simpl. by rewrite fmap_app, <- app_assoc.
Qed.

(** X1.  When no method panics, the report gets one Record per enabled
    collector, in the order of the loops, and is rendered once. *)
Lemma evaluateAndRender_one_record_each (iter : list (metric.Group * list metricService)) :
  Forall answers (enabled iter) →
  ∃ sink, evaluateAndRender iter report.New = (sink, Returns ()) ∧
          report.renders sink = 1%nat ∧
          report.MetricName <$> report.records sink = GetName <$> enabled iter.
Proof.
  intros Hall.
  destruct (evaluateGroups_answers iter report.New Hall) as (sink & Hrun & Hr & Hn).
  exists (report.Render sink). unfold evaluateAndRender. rewrite Hrun.
  split; [done|]. split; [simpl; by rewrite Hr | done].
Qed.

End evaluating.

(** C3 at its failing input.  With an empty store the execution latency
    collector panics in AggregateResults, so Start adds no Record for it
    and never renders; the consensus latency collector renders zeros. *)
Theorem execution_latency_empty_store_panics `{Formatter} :
  metric.DataPoints (execution.LatencyMetric.Base unreachableLatency) = [] ∧
  execution.LatencyMetric.AggregateResults unreachableLatency
  = Panic "index out of range [-1]" ∧
  benchmark.evaluateAndRender
    [(metric.ExecutionGroup, [benchmark.executionLatency unreachableLatency])] report.New
  = (report.New, Panic "index out of range [-1]") ∧
  consensus.LatencyMetric.AggregateResults unreachableConsensusLatency
  = FormatPercentiles_Duration 0 0 0 0 0.
Proof. repeat split. Qed.

(** C4 at its failing input.  The range loop takes the Execution group
    first; its latency collector panics, and the Record of the consensus
    peer collector, which evaluates without any failure, is never added. *)
Theorem panic_suppresses_later_records `{Formatter} :
  let later := benchmark.consensusPeers steadyConsensusPeers in
  let s := benchmark.New
             {[ metric.ExecutionGroup := [benchmark.executionLatency unreachableLatency];
                metric.ConsensusGroup := [later] ]}
             report.New in
  let iter := [ (metric.ExecutionGroup, [benchmark.executionLatency unreachableLatency]);
                (metric.ConsensusGroup, [later]) ] in
  rangeOrder (benchmark.metrics s) iter ∧
  answers later ∧
  benchmark.evaluateAndRender iter (benchmark.report_ s)
  = (report.New, Panic "index out of range [-1]") ∧
  (∃ sink, benchmark.evaluateAndRender [(metric.ConsensusGroup, [later])] report.New
           = (sink, Returns ()) ∧
           report.MetricName <$> report.records sink = ["Peers"%string]).
Proof.
  intros later s iter. split; [|split; [|split]].
  - unfold rangeOrder, s, iter. simpl.
    rewrite map_to_list_insert by done. rewrite map_to_list_singleton. done.
  - split; eexists; reflexivity.
  - reflexivity.
  - eexists. split; reflexivity.
Qed.

(** X1 on two peer collectors, one per group. *)
Lemma evaluateAndRender_one_record_each_witness :
  Forall answers
    (benchmark.enabled
       [ (metric.ExecutionGroup,
          [benchmark.executionPeers (H := plainFormatter)
             [(execution.PeerMetric.PeerCountMeasurement, storedMessage)] afterPeersRun]);
         (metric.ConsensusGroup,
          [benchmark.consensusPeers (H := plainFormatter) steadyConsensusPeers]) ]) ∧
  ∃ sink,
    benchmark.evaluateAndRender
      [ (metric.ExecutionGroup,
         [benchmark.executionPeers (H := plainFormatter)
            [(execution.PeerMetric.PeerCountMeasurement, storedMessage)] afterPeersRun]);
        (metric.ConsensusGroup,
         [benchmark.consensusPeers (H := plainFormatter) steadyConsensusPeers]) ]
      report.New
    = (sink, Returns ()) ∧
    report.renders sink = 1%nat ∧
    report.MetricName <$> report.records sink = ["Peers"%string; "Peers"%string].
Proof.
  assert (Forall answers
    (benchmark.enabled
       [ (metric.ExecutionGroup,
          [benchmark.executionPeers (H := plainFormatter)
             [(execution.PeerMetric.PeerCountMeasurement, storedMessage)] afterPeersRun]);
         (metric.ConsensusGroup,
          [benchmark.consensusPeers (H := plainFormatter) steadyConsensusPeers]) ])) as Hall.
  { repeat constructor; eexists; reflexivity. }
  split; [exact Hall|]. exact (evaluateAndRender_one_record_each _ Hall).
Defined.

(** ** More on the Evaluating phase *)

Section evaluating_more.
Import benchmark.

Lemma evaluateGroup_until_panic (g : metric.Group) (ms : list metricService)
    (sink : report.t) :
  ∃ visited rest added,
    ms = visited ++ rest ∧
    Forall2 (λ m r, recordOf (g, m) r) visited added ∧
    report.records (evaluateGroup g ms sink).1 = report.records sink ++ added ∧
    report.renders (evaluateGroup g ms sink).1 = report.renders sink ∧
    match (evaluateGroup g ms sink).2 with
    | Returns _ => rest = []
    | Panic e => ∃ m rest', rest = m :: rest' ∧ fails m e
    end.
Proof.
  revert sink. induction ms as [|m ms IH]; intros sink.
  - exists [], [], []. simpl. by rewrite app_nil_r.
  - simpl. destruct (EvaluateMetric m) as [[health severity]|e] eqn:Hv.
    + destruct (AggregateResults m) as [value|e] eqn:Ha.
      * destruct (IH (report.AddRecord
                        (report.mkRecord g (GetName m) value health severity) sink))
          as (visited & rest & added & -> & Hrec & Hrecords & Hrenders & Hend).
        exists (m :: visited), rest,
          (report.mkRecord g (GetName m) value health severity :: added).
        split; [done|]. split.
        { constructor; [|done]. by exists health, severity, value. }
        split; [by rewrite Hrecords; simpl; rewrite <- app_assoc|]. by split.
      * exists [], (m :: ms), []. simpl. rewrite app_nil_r.
        repeat split; try done. exists m, ms. split; [done|]. right. eauto.
    + exists [], (m :: ms), []. simpl. rewrite app_nil_r.
      repeat split; try done. exists m, ms. split; [done|]. by left.
Qed.

Lemma evaluateGroups_until_panic (iter : list (metric.Group * list metricService))
    (sink : report.t) :
  ∃ visited rest added,
    listed iter = visited ++ rest ∧
    Forall2 recordOf visited added ∧
    report.records (evaluateGroups iter sink).1 = report.records sink ++ added ∧
    report.renders (evaluateGroups iter sink).1 = report.renders sink ∧
    match (evaluateGroups iter sink).2 with
    | Returns _ => rest = []
    | Panic e => ∃ gm rest', rest = gm :: rest' ∧ fails gm.2 e
    end.
Proof.
  revert sink. induction iter as [|[g ms] iter IH]; intros sink.
  - exists [], [], []. simpl. by rewrite app_nil_r.
  - destruct (evaluateGroup_until_panic g ms sink)
      as (visited & rest & added & Hms & Hrec & Hrecords & Hrenders & Hend).
    simpl. destruct (evaluateGroup g ms sink) as [sink1 [[]|e]]; simpl in *.
    + subst rest. rewrite app_nil_r in Hms. subst visited.
      destruct (IH sink1) as (visited2 & rest2 & added2 & Hl & Hrec2 & Hrecords2 & Hr2 & Hend2).
      exists (((λ m, (g, m)) <$> ms) ++ visited2), rest2, (added ++ added2).
      split; [by rewrite Hl, app_assoc|]. split.
      { apply Forall2_app; [|done]. by apply Forall2_fmap_l. }
      split; [by rewrite Hrecords2, Hrecords, app_assoc|].
      split; [congruence | done].
    + destruct Hend as (m & rest' & -> & Hfails).
      exists ((λ m, (g, m)) <$> visited), ((g, m) :: ((λ m, (g, m)) <$> rest') ++ listed iter),
        added.
      split; [by rewrite Hms, fmap_app, <- app_assoc|].
      split; [by apply Forall2_fmap_l|]. split; [done|]. split; [done|].
      eexists _, _. by split.
Qed.

(** X2.  What [Start] leaves in the sink, whatever the collectors do.  It
    visits the collectors in loop order, calls EvaluateMetric before
    AggregateResults, and adds one Record per collector, built from the
    group, the name and the two results, up to the first collector that
    panics.  It renders, once, exactly when none panics; a panic leaves
    the Records of the collectors before it and no rendering. *)
Theorem Start_records_until_panic (iter : list (metric.Group * list metricService))
    (sink : report.t) :
  ∃ visited rest added,
    listed iter = visited ++ rest ∧
    Forall2 recordOf visited added ∧
    report.records (evaluateAndRender iter sink).1 = report.records sink ++ added ∧
    match (evaluateAndRender iter sink).2 with
    | Returns _ =>
        rest = [] ∧
        report.renders (evaluateAndRender iter sink).1 = S (report.renders sink)
    | Panic e =>
        report.renders (evaluateAndRender iter sink).1 = report.renders sink ∧
        ∃ gm rest', rest = gm :: rest' ∧ fails gm.2 e
    end.
Proof.
  destruct (evaluateGroups_until_panic iter sink)
    as (visited & rest & added & Hl & Hrec & Hrecords & Hrenders & Hend).
  exists visited, rest, added. unfold evaluateAndRender.
  destruct (evaluateGroups iter sink) as [sink1 [[]|e]]; simpl in *.
  - repeat split; try done. by rewrite Hrenders.
  - by repeat split.
Qed.

End evaluating_more.

(** ** More on the orchestrator and its goroutines *)

Section orchestration_more.
Import benchmark.

Lemma evaluation_cons (i : nat) (rest : list nat) :
  evaluation (i :: rest)
  = [EvaluateMetricCall i; AggregateResultsCall i; AddRecordCall i] ++ evaluation rest.
Proof. reflexivity. Qed.

Lemma script_step (evalOrder : list nat) (w w' : world) :
  step evalOrder w w' →
  filter (λ e, ownEvent e = true) (trace w') ++ remaining (orch w') evalOrder
  = filter (λ e, ownEvent e = true) (trace w) ++ remaining (orch w) evalOrder.
Proof.
  intros Hstep.
  destruct Hstep as [d ts i rest tr|d ts tr|ts o tr|d ts o tr i Hi|ts o tr i Hi|ts tr
                    |d ts i rest tr|d ts i rest tr|d ts tr]; simpl;
    rewrite ?filter_app, ?evaluation_cons; simpl;
    rewrite ?app_nil_r, <- ?app_assoc; done.
Qed.

(** X3.  Whatever the collectors and the cancellation do in between, the
    orchestrator's own events follow one script: the launches in the order
    of the first loop, then for each collector in the order of the second
    loop EvaluateMetric, AggregateResults and AddRecord, then one Render.
    At every moment the events so far and the events still to come make up
    that script; an execution that reached the end holds it whole. *)
Theorem orchestrator_follows_script (n : nat) (launchOrder evalOrder : list nat)
    (w : world) (Hrun : execution n launchOrder evalOrder w) :
  filter (λ e, ownEvent e = true) (trace w) ++ remaining (orch w) evalOrder
  = script launchOrder evalOrder ∧
  (orch w = Rendered →
   filter (λ e, ownEvent e = true) (trace w) = script launchOrder evalOrder).
Proof.
  assert (filter (λ e, ownEvent e = true) (trace w) ++ remaining (orch w) evalOrder
          = script launchOrder evalOrder) as Hscript.
  { unfold execution in Hrun.
    eapply (rtc_ind_r (λ w, filter (λ e, ownEvent e = true) (trace w)
                              ++ remaining (orch w) evalOrder
                            = script launchOrder evalOrder)
              (initial n launchOrder));
      [reflexivity| |exact Hrun].
    intros w1 w2 _ Hstep IH. by rewrite (script_step _ _ _ Hstep). }
  split; [done|]. intros Hend. rewrite Hend in Hscript. simpl in Hscript.
  by rewrite app_nil_r in Hscript.
Qed.

End orchestration_more.

Section collectors_schedule.
Import benchmark.

Lemma neverAfter_nil (a b : event) : neverAfter a b [].
Proof. intros pre post Heq. by destruct pre. Qed.

Lemma neverAfter_snoc (a b e' : event) (tr : list event) :
  neverAfter a b tr → (b = e' → a ∉ tr) → neverAfter a b (tr ++ [e']).
Proof.
  intros Hold Hnew pre post Heq.
  apply snoc_split in Heq as [(-> & -> & ->)|(post' & -> & ->)].
  - apply not_elem_of_nil.
  - rewrite elem_of_app, list_elem_of_singleton. intros [Hin| ->].
    + by eapply Hold.
    + apply (Hnew eq_refl). apply elem_of_app. right. by left.
Qed.

Lemma disciplined_nil : disciplined [].
Proof. intros i. repeat split; auto using before_nil, neverAfter_nil. Qed.

Lemma disciplined_snoc (tr : list event) (e' : event) :
  disciplined tr →
  (∀ i, e' = MeasureReturned i → Cancel ∈ tr ∧ Launch i ∈ tr ∧ MeasureReturned i ∉ tr) →
  (∀ i, e' = StoreWrite i → Launch i ∈ tr ∧ MeasureReturned i ∉ tr) →
  disciplined (tr ++ [e']).
Proof.
  intros Hold Hret Hwrite i. destruct (Hold i) as (Hc & Hl & Hw & Hnw & Hnr).
  repeat split.
  - apply before_snoc; [done|]. intros <-. by apply (Hret i).
  - apply before_snoc; [done|]. intros <-. by apply (Hret i).
  - apply before_snoc; [done|]. intros <-. by apply (Hwrite i).
  - apply neverAfter_snoc; [done|]. intros <-. by apply (Hwrite i).
  - apply neverAfter_snoc; [done|]. intros <-. by apply (Hret i).
Qed.

(** An event of the orchestrator, or the cancellation, changes nothing
    for the collectors. *)
Lemma disciplined_other (tr : list event) (e' : event) :
  disciplined tr →
  (∀ i, e' ≠ MeasureReturned i) → (∀ i, e' ≠ StoreWrite i) →
  disciplined (tr ++ [e']).
Proof.
  intros Hold Hr Hw. apply disciplined_snoc; [done| |].
  - intros i Heq. by destruct (Hr i).
  - intros i Heq. by destruct (Hw i).
Qed.

Lemma tasksInvariant_step (evalOrder : list nat) (w w' : world) :
  tasksInvariant w → disciplined (trace w) → step evalOrder w w' →
  tasksInvariant w' ∧ disciplined (trace w').
Proof.
  intros (Hdone & Hlaunched & Hreturned & Horch) Hdisc Hstep.
  destruct Hstep as [d ts i rest tr|d ts tr|ts o tr|d ts o tr i Hi|ts o tr i Hi|ts tr
                    |d ts i rest tr|d ts i rest tr|d ts tr];
    unfold tasksInvariant; cbn [done tasks orch trace] in *.
  - (* launch *)
    destruct Horch as [Hnodup Hrest]. apply NoDup_cons in Hnodup as [Hfresh Hnodup].
    assert (∀ j, ts !! j = Some Exited ∨ ts !! j = Some InLoop → j ≠ i) as Hne.
    { intros j Hj ->. destruct (Hrest i) as [Hi|Hi]; [by left|..];
        rewrite Hi in Hj; by destruct Hj. }
    split; [|apply disciplined_other; done].
    split; [intros Hd; apply elem_of_app; left; auto|]. split; [|split; [|split]].
    + intros j Hj. apply elem_of_app. destruct (decide (j = i)) as [->|Hji].
      * right. by left.
      * left. rewrite list_lookup_insert_ne in Hj by done. by apply Hlaunched.
    + intros j Hj. apply elem_of_app in Hj as [Hj|Hj];
        [|by apply list_elem_of_singleton in Hj].
      specialize (Hreturned j Hj).
      assert (j ≠ i) as Hji by (apply Hne; by left).
      by rewrite list_lookup_insert_ne.
    + done.
    + intros j Hj. assert (j ≠ i) by (by intros ->).
      rewrite list_lookup_insert_ne by done. apply Hrest. by right.
  - (* the first loop is over *)
    split; [|exact Hdisc]. split; [exact Hdone|]. split; [exact Hlaunched|].
    split; [exact Hreturned | exact I].
  - (* cancel *)
    split; [|apply disciplined_other; done].
    split; [intros _; apply elem_of_app; right; by left|].
    split; [intros j Hj; apply elem_of_app; left; by apply Hlaunched|].
    split; [|done]. intros j Hj. apply Hreturned.
    apply elem_of_app in Hj as [Hj|Hj]; [done | by apply list_elem_of_singleton in Hj].
  - (* tick *)
    assert (MeasureReturned i ∉ tr) as Hnot.
    { intros Hin. apply Hreturned in Hin. congruence. }
    split.
    + split; [intros Hd; apply elem_of_app; left; auto|].
      split; [intros j Hj; apply elem_of_app; left; by apply Hlaunched|].
      split; [|done]. intros j Hj. apply Hreturned.
      apply elem_of_app in Hj as [Hj|Hj]; [done | by apply list_elem_of_singleton in Hj].
    + apply disciplined_snoc; [done|by intros j|]. intros j [= <-].
      split; [apply Hlaunched; by left | done].
  - (* a collector returns *)
    assert (MeasureReturned i ∉ tr) as Hnot.
    { intros Hin. apply Hreturned in Hin. congruence. }
    pose proof (lookup_lt_Some _ _ _ Hi) as Hlt.
    split.
    + split; [intros Hd; apply elem_of_app; left; auto|]. split; [|split].
      * intros j Hj. apply elem_of_app. left. apply Hlaunched.
        destruct (decide (j = i)) as [->|Hji]; [by left|].
        by rewrite list_lookup_insert_ne in Hj.
      * intros j Hj. destruct (decide (j = i)) as [->|Hji].
        { by rewrite list_lookup_insert_eq. }
        rewrite list_lookup_insert_ne by done. apply Hreturned.
        apply elem_of_app in Hj as [Hj|Hj]; [done|].
        apply list_elem_of_singleton in Hj. congruence.
      * destruct o; try done. destruct Horch as [Hnodup Hrest]. split; [done|].
        intros j Hj. assert (j ≠ i).
        { intros ->. destruct (Hrest i Hj) as [Hn|Hn]; congruence. }
        rewrite list_lookup_insert_ne by done. by apply Hrest.
    + apply disciplined_snoc; [done| |by intros j]. intros j [= <-].
      split; [by apply Hdone|]. split; [apply Hlaunched; by left | done].
  - (* the context is done *)
    split; [|exact Hdisc]. split; [exact Hdone|]. split; [exact Hlaunched|].
    split; [exact Hreturned | exact I].
  - (* EvaluateMetric *)
    split; [|apply disciplined_other; done].
    split; [intros Hd; apply elem_of_app; left; auto|].
    split; [intros j Hj; apply elem_of_app; left; by apply Hlaunched|].
    split; [|done]. intros j Hj. apply Hreturned.
    apply elem_of_app in Hj as [Hj|Hj]; [done | by apply list_elem_of_singleton in Hj].
  - (* AggregateResults, AddRecord *)
    change (tr ++ [AggregateResultsCall i; AddRecordCall i])
      with (tr ++ [AggregateResultsCall i] ++ [AddRecordCall i]).
    rewrite app_assoc.
    split; [|do 2 (apply disciplined_other; [|done..]); done].
    split; [intros Hd; rewrite !elem_of_app; auto|].
    split; [intros j Hj; rewrite !elem_of_app; left; left; by apply Hlaunched|].
    split; [|done]. intros j Hj. apply Hreturned.
    rewrite !elem_of_app, !list_elem_of_singleton in Hj. by destruct Hj as [[Hj|Hj]|Hj].
  - (* Render *)
    split; [|apply disciplined_other; done].
    split; [intros Hd; apply elem_of_app; left; auto|].
    split; [intros j Hj; apply elem_of_app; left; by apply Hlaunched|].
    split; [|done]. intros j Hj. apply Hreturned.
    apply elem_of_app in Hj as [Hj|Hj]; [done | by apply list_elem_of_singleton in Hj].
Qed.

Lemma tasksInvariant_initial (n : nat) (launchOrder : list nat) :
  NoDup launchOrder → tasksInvariant (initial n launchOrder).
Proof.
  intros Hnodup. split; [done|]. split; [|split; [|split; [done|]]]; simpl.
  - intros i [Hi|Hi]; apply lookup_replicate in Hi as [? _]; done.
  - intros i Hi. by apply elem_of_nil in Hi.
  - intros i _. destruct (decide (i < n)%nat) as [Hlt|Hge].
    + left. by apply lookup_replicate.
    + right. apply lookup_ge_None. rewrite length_replicate. lia.
Qed.

(** X4.  Within every execution of [Start] over distinct collectors, a
    collector leaves its Measure loop only after the context was
    cancelled, and at most once; it writes to its store only after it was
    launched and never again once its Measure has returned. *)
Theorem collectors_are_disciplined (n : nat) (launchOrder evalOrder : list nat)
    (w : world)
    (Hdistinct : NoDup launchOrder)
    (Hrun : execution n launchOrder evalOrder w) :
  disciplined (trace w).
Proof.
  unfold execution in Hrun.
  enough (tasksInvariant w ∧ disciplined (trace w)) as [_ Hgoal]; [exact Hgoal|].
  eapply (rtc_ind_r (λ w, tasksInvariant w ∧ disciplined (trace w))
            (initial n launchOrder)); [| |exact Hrun].
  - split; [by apply tasksInvariant_initial | apply disciplined_nil].
  - intros w1 w2 _ Hstep [Htasks Hdisc]. by eapply tasksInvariant_step.
Qed.

End collectors_schedule.

Lemma finishedWorld_execution : benchmark.execution 1 [0%nat] [0%nat] finishedWorld.
Proof.
  unfold benchmark.execution. eapply rtc_trans; [exact racyWorld_execution|].
  unfold racyWorld, finishedWorld.
  eapply rtc_l; [apply benchmark.step_aggregate|]. simpl.
  eapply rtc_l; [apply benchmark.step_render|]. simpl.
  apply rtc_refl.
Qed.

(** X3 on the execution that ends in [finishedWorld]. *)
Lemma orchestrator_follows_script_witness :
  filter (λ e, ownEvent e = true) (benchmark.trace finishedWorld)
  = [ benchmark.Launch 0; benchmark.EvaluateMetricCall 0; benchmark.AggregateResultsCall 0;
      benchmark.AddRecordCall 0; benchmark.RenderCall ].
Proof.
  exact (proj2 (orchestrator_follows_script 1 [0%nat] [0%nat] finishedWorld
                  finishedWorld_execution) eq_refl).
Defined.

(** X4 on the same execution. *)
Lemma collectors_are_disciplined_witness :
  NoDup [0%nat] ∧ disciplined (benchmark.trace finishedWorld).
Proof.
  assert (NoDup [0%nat]) as Hdistinct by (apply NoDup_singleton).
  split; [exact Hdistinct|].
  exact (collectors_are_disciplined 1 [0%nat] [0%nat] finishedWorld Hdistinct
           finishedWorld_execution).
Defined.

(** ** More on the collectors *)

Section client_aggregate.
Import consensus.ClientMetric.

(** What a tick appends is decided by the tick alone. *)
Lemma client_tick_values (k : Tick) :
  ∃ h v s l, ∀ c,
    metric.DataPoints (Base (tick k c).1)
    = metric.DataPoints (Base c)
      ++ [ metric.mkDataPoint (now (health k)) {[ NodeHealthMeasurement := h ]};
           metric.mkDataPoint (now (version k)) {[ VersionMeasurement := v ]};
           metric.mkDataPoint (now (syncing k)) {[ SyncStatusMeasurement := s ]};
           metric.mkDataPoint (now (latency k)) {[ LatencyMeasurement := l ]} ].
Proof.
  unfold tick, measureNodeHealth, measureNodeVersion, measureSyncStatus, measureLatency.
  destruct k as [[rh nh] [rv nv] [rs ns] [rl nl] ms]. simpl.
  destruct rh as [[sh dh]|], rv as [[sv dv]|], rs as [[ss ds]|], rl as [[sl dl]|]; simpl;
    repeat match goal with
           | |- context [?a =? ?b] => destruct (a =? b); simpl
           | |- context [match ?d with Some _ => _ | None => _ end] => destruct d; simpl
           end;
    do 4 eexists; intros c; rewrite <- !app_assoc; reflexivity.
Qed.

Lemma latestOf_after_tick (points : list (metric.DataPoint string))
    (n1 n2 n3 n4 : Z) (h v s l : string) :
  let four := [ metric.mkDataPoint n1 {[ NodeHealthMeasurement := h ]};
                metric.mkDataPoint n2 {[ VersionMeasurement := v ]};
                metric.mkDataPoint n3 {[ SyncStatusMeasurement := s ]};
                metric.mkDataPoint n4 {[ LatencyMeasurement := l ]} ] in
  latestOf NodeHealthMeasurement (points ++ four) = h ∧
  latestOf VersionMeasurement (points ++ four) = v ∧
  latestOf SyncStatusMeasurement (points ++ four) = s ∧
  latestOf LatencyMeasurement (points ++ four) = l.
Proof.
  unfold latestOf. rewrite !foldl_app. simpl.
  repeat split;
    repeat (rewrite lookup_singleton_eq || rewrite lookup_singleton_ne by done); done.
Qed.

End client_aggregate.

(** X5.  The summary of the consensus client collector shows the last
    tick only: after any run that ended with tick k it is the summary a
    single tick k gives, whatever was measured before; with an empty store
    all four fields are blank. *)
Theorem client_aggregate_shows_last_tick (ticks : list consensus.ClientMetric.Tick)
    (k : consensus.ClientMetric.Tick) (c c' : consensus.ClientMetric.t) :
  consensus.ClientMetric.AggregateResults
    (consensus.ClientMetric.Measure (ticks ++ [k]) c).1
  = consensus.ClientMetric.AggregateResults (consensus.ClientMetric.tick k c').1 ∧
  ∀ url name healthCondition measureInterval,
    consensus.ClientMetric.AggregateResults
      (consensus.ClientMetric.NewClientMetric url name healthCondition measureInterval)
    = "Version: , Node Health: , Sync Status: , Latency: "%string.
Proof.
  split; [|reflexivity].
  rewrite client_Measure_snoc.
  destruct (consensus.ClientMetric.Measure ticks c) as [c1 probes].
  destruct (client_tick_values k) as (h & v & s & l & Hpoints).
  pose proof (Hpoints c1) as H1. pose proof (Hpoints c') as H2.
  destruct (consensus.ClientMetric.tick k c1) as [c2 ps].
  destruct (consensus.ClientMetric.tick k c') as [c2' ps']. simpl in *.
  unfold consensus.ClientMetric.AggregateResults. rewrite H1, H2.
  destruct (latestOf_after_tick (metric.DataPoints (consensus.ClientMetric.Base c1))
              (consensus.ClientMetric.now (consensus.ClientMetric.health k))
              (consensus.ClientMetric.now (consensus.ClientMetric.version k))
              (consensus.ClientMetric.now (consensus.ClientMetric.syncing k))
              (consensus.ClientMetric.now (consensus.ClientMetric.latency k)) h v s l)
    as (-> & -> & -> & ->).
  destruct (latestOf_after_tick (metric.DataPoints (consensus.ClientMetric.Base c'))
              (consensus.ClientMetric.now (consensus.ClientMetric.health k))
              (consensus.ClientMetric.now (consensus.ClientMetric.version k))
              (consensus.ClientMetric.now (consensus.ClientMetric.syncing k))
              (consensus.ClientMetric.now (consensus.ClientMetric.latency k)) h v s l)
    as (-> & -> & -> & ->).
  reflexivity.
Qed.

Section execution_peers_more.
Import execution.PeerMetric.

Lemma loop_no_emptyResult (ticks : list Tick) (p p' : t) (probes : list Probe) :
  loop ticks p = Returns (p', probes) →
  (∀ k, k ∈ ticks → ¬ emptyResult k) →
  measuringErrors p' = measuringErrors p.
Proof.
  revert p probes. induction ticks as [|k ticks IH]; intros p probes Hrun Hnone.
  - simpl in Hrun. by injection Hrun as <- _.
  - simpl in Hrun.
    destruct (measure k p) as [[p1 probes1]|] eqn:Hk; [|done]. simpl in Hrun.
    destruct (loop ticks p1) as [[p2 probes2]|] eqn:Hrest; [|done].
    simpl in Hrun. injection Hrun as <- _.
    apply measure_measuringErrors in Hk as [[Hempty _]|[_ <-]].
    + destruct (Hnone k); [by left | done].
    + eapply IH; [done|]. intros k' Hk'. apply Hnone. by right.
Qed.

Lemma Measure_no_emptyResult (ticks : list Tick) (p p' : t) (probes : list Probe) :
  Measure ticks p = Returns (p', probes) →
  (∀ k, k ∈ ticks → ¬ emptyResult k) →
  measuringErrors p' = measuringErrors p.
Proof.
  intros [_ Hrun]%Measure_Returns Hnone. by eapply loop_no_emptyResult.
Qed.

End execution_peers_more.

(** X6.  The execution peer collector stores a measuring error for the
    empty result only.  After a run in which no tick met it, whatever else
    failed (transport, status, decoding, parsing), no error is stored, the
    range loop of AggregateResults has nothing to visit, and the summary is
    the percentile rendering of the recorded counts. *)
Theorem execution_peers_other_failures_keep_summary `{Formatter}
    (url name : string) (interval : Z) (healthCondition : list (metric.HealthCondition Z))
    (ticks : list execution.PeerMetric.Tick)
    (p : execution.PeerMetric.t) (probes : list Probe) (iter : list (string * string))
    (Hrun : execution.PeerMetric.Measure ticks
              (execution.PeerMetric.NewPeerMetric url name interval healthCondition)
            = Returns (p, probes))
    (Hnone : ∀ k, k ∈ ticks → ¬ emptyResult k)
    (Hiter : rangeOrder (execution.PeerMetric.measuringErrors p) iter) :
  execution.PeerMetric.measuringErrors p = ∅ ∧
  iter = [] ∧
  let counts := (λ point, zeroIndex 0 (metric.Values point)
                            execution.PeerMetric.PeerCountMeasurement)
                  <$> metric.DataPoints (execution.PeerMetric.Base p) in
  let percentiles := metric.CalculatePercentiles counts requested in
  length counts = length ticks ∧
  execution.PeerMetric.AggregateResults iter p
  = FormatPercentiles_uint32
      (zeroIndex 0 percentiles 0) (zeroIndex 0 percentiles 10)
      (zeroIndex 0 percentiles 50) (zeroIndex 0 percentiles 90)
      (zeroIndex 0 percentiles 100).
Proof.
  pose proof (Measure_no_emptyResult _ _ _ _ Hrun Hnone) as Herrors. simpl in Herrors.
  apply execution_peers_Measure_probes in Hrun as (_ & _ & _ & Hcount & _).
  unfold rangeOrder in Hiter. rewrite Herrors, map_to_list_empty in Hiter.
  apply Permutation_nil_r in Hiter. subst iter.
  split; [done|]. split; [done|]. cbv zeta. split; [|reflexivity].
  rewrite length_fmap, Hcount. reflexivity.
Qed.

(** X6 on a run through a transport error, a 503 and an unparsable count. *)
Lemma execution_peers_other_failures_keep_summary_witness :
  ∃ p probes,
    execution.PeerMetric.Measure mixedFailures
      (benchmark.loadExecutionPeers "http://geth:8545")
    = Returns (p, probes) ∧
    execution.PeerMetric.measuringErrors p = ∅ ∧
    execution.PeerMetric.AggregateResults (H := plainFormatter) [] p
    = "min=0, p10=0, p50=0, p90=42, max=42"%string.
Proof.
  destruct (execution.PeerMetric.Measure mixedFailures
              (benchmark.loadExecutionPeers "http://geth:8545"))
    as [[p probes]|msg] eqn:Hrun; [|by vm_compute in Hrun].
  exists p, probes. split; [done|].
  assert (∀ k, k ∈ mixedFailures → ¬ emptyResult k) as Hnone.
  { intros k Hk (_ & res & Hres & Hok & Hdec). unfold mixedFailures in Hk.
    rewrite !elem_of_cons, elem_of_nil in Hk.
    destruct Hk as [->|[->|[->|[->|[]]]]]; simpl in *; simplify_eq. }
  assert (rangeOrder (execution.PeerMetric.measuringErrors p) []) as Hiter.
  { unfold rangeOrder.
    rewrite (Measure_no_emptyResult _ _ _ _ Hrun Hnone). simpl.
    by rewrite map_to_list_empty. }
  destruct (execution_peers_other_failures_keep_summary (H := plainFormatter)
              _ _ _ _ _ _ _ _ Hrun Hnone Hiter) as (Hempty & _ & _ & Hsummary).
  split; [exact Hempty|]. rewrite Hsummary.
  vm_compute in Hrun. injection Hrun as <- _. vm_compute. reflexivity.
Defined.

Section latency_siblings.

Lemma latency_runs_agree (host name : string) (interval : Z)
    (healthCondition : list (metric.HealthCondition Z)) (ticks : list (option Z * Z)) :
  let e := (execution.LatencyMetric.Measure (asDial <$> ticks)
              (execution.LatencyMetric.NewLatencyMetric host name interval healthCondition)).1 in
  let c := (consensus.LatencyMetric.Measure (asGet <$> ticks)
              (consensus.LatencyMetric.NewLatencyMetric host name interval healthCondition)).1 in
  execution.LatencyMetric.Base e = consensus.LatencyMetric.Base c ∧
  execution.LatencyMetric.durations e = consensus.LatencyMetric.durations c.
Proof.
  induction ticks as [|k ticks IH] using rev_ind; [done|].
  cbv zeta in *. rewrite !fmap_app. simpl.
  rewrite execution_latency_Measure_snoc, consensus_latency_Measure_snoc.
  destruct (execution.LatencyMetric.Measure _ _) as [e1 pe].
  destruct (consensus.LatencyMetric.Measure _ _) as [c1 pc].
  destruct IH as [Hbase Hdur]. simpl in *.
  unfold execution.LatencyMetric.measure, consensus.LatencyMetric.measure.
  destruct k as [[d|] now]; simpl; [|done].
  unfold execution.LatencyMetric.writeMetric, consensus.LatencyMetric.writeMetric. simpl.
  by rewrite Hbase, Hdur.
Qed.

End latency_siblings.

(** X7.  The two latency collectors differ in AggregateResults on the
    empty store only.  Run over the same probe outcomes they hold the same
    store; when at least one probe succeeded both render the same string;
    when none did, the consensus collector renders zeros and the execution
    collector panics. *)
Theorem latency_aggregates_differ_on_empty_only `{Formatter} (host name : string)
    (interval : Z) (healthCondition : list (metric.HealthCondition Z))
    (ticks : list (option Z * Z)) :
  let e := (execution.LatencyMetric.Measure (asDial <$> ticks)
              (execution.LatencyMetric.NewLatencyMetric host name interval healthCondition)).1 in
  let c := (consensus.LatencyMetric.Measure (asGet <$> ticks)
              (consensus.LatencyMetric.NewLatencyMetric host name interval healthCondition)).1 in
  execution.LatencyMetric.Base e = consensus.LatencyMetric.Base c ∧
  match omap fst ticks with
  | [] =>
      consensus.LatencyMetric.AggregateResults c = FormatPercentiles_Duration 0 0 0 0 0 ∧
      execution.LatencyMetric.AggregateResults e = Panic "index out of range [-1]"
  | _ :: _ =>
      execution.LatencyMetric.AggregateResults e
      = Returns (consensus.LatencyMetric.AggregateResults c)
  end.
Proof.
  intros e c.
  destruct (latency_runs_agree host name interval healthCondition ticks) as [Hbase _].
  fold e c in Hbase. split; [exact Hbase|].
  destruct (execution_latency_Measure_cumulative (asDial <$> ticks)
              (execution.LatencyMetric.NewLatencyMetric host name interval healthCondition)
              cumulative_nil) as [[Hlen _] Hdur].
  fold e in Hlen, Hdur. simpl in Hdur.
  assert (omap execution.LatencyMetric.dial (asDial <$> ticks) = omap fst ticks) as Hsame.
  { clear. induction ticks as [|[[d|] now] ticks IH]; simpl; [done|by f_equal|done]. }
  rewrite Hdur, Hsame in Hlen.
  unfold execution.LatencyMetric.AggregateResults, consensus.LatencyMetric.AggregateResults.
  rewrite <- Hbase.
  destruct (omap fst ticks) as [|d ds];
    destruct (metric.DataPoints (execution.LatencyMetric.Base e)) as [|point points] eqn:Hp
      using rev_ind; simpl in Hlen; try done.
  - rewrite length_app in Hlen. simpl in Hlen. lia.
  - by rewrite last_snoc.
Qed.

(** ** The infrastructure collectors *)

Section memory_metric.
Import infrastructure.MemoryMetric.

Lemma memory_Measure_snoc (ticks : list Tick) (k : Tick) (m : t) :
  Measure (ticks ++ [k]) m = measure k (Measure ticks m).
Proof. unfold Measure. by rewrite foldl_app. Qed.

Lemma memorySamples_snoc (ticks : list Tick) (k : Tick) :
  memorySamples (ticks ++ [k])
  = memorySamples ticks ++ option_list ((λ st, (now k, st)) <$> get k).
Proof. unfold memorySamples. rewrite omap_app. simpl. by destruct (get k). Qed.

End memory_metric.

(** X8.  The store of the memory collector holds exactly the successful
    samples of the run, in order: each as one DataPoint stamped with the
    time of its tick and holding the cached, used, free and total values
    under their four names; a failed sample leaves no trace.  Nothing else
    of the collector changes. *)
Theorem memory_store_holds_successful_samples
    (ticks : list infrastructure.MemoryMetric.Tick) (m : infrastructure.MemoryMetric.t) :
  let m' := infrastructure.MemoryMetric.Measure ticks m in
  infrastructure.MemoryMetric.interval m' = infrastructure.MemoryMetric.interval m ∧
  metric.BaseName (infrastructure.MemoryMetric.Base m')
  = metric.BaseName (infrastructure.MemoryMetric.Base m) ∧
  metric.HealthConditions (infrastructure.MemoryMetric.Base m')
  = metric.HealthConditions (infrastructure.MemoryMetric.Base m) ∧
  ∃ points,
    metric.DataPoints (infrastructure.MemoryMetric.Base m')
    = metric.DataPoints (infrastructure.MemoryMetric.Base m) ++ points ∧
    Forall2 holdsMemory points (memorySamples ticks).
Proof.
  induction ticks as [|k ticks IH] using rev_ind.
  - simpl. repeat split. exists []. by rewrite app_nil_r.
  - cbv zeta in *. rewrite memory_Measure_snoc, memorySamples_snoc.
    destruct IH as (Hi & Hn & Hc & points & Hpoints & Hall).
    unfold infrastructure.MemoryMetric.measure.
    destruct (infrastructure.MemoryMetric.get k) as [st|]; simpl.
    + repeat split; try done.
      eexists (points ++ [_]). rewrite Hpoints, <- app_assoc. split; [reflexivity|].
      apply Forall2_app; [done|]. constructor; [|constructor].
      repeat split.
    + rewrite app_nil_r. repeat split; try done. by exists points.
Qed.

Section cpu_metric.
Import infrastructure.CPUMetric.
Context {F : Type} (percent : Z → Z → F).

Lemma cpu_Measure_snoc (ticks : list Tick) (k : Tick) (c : t F) :
  Measure percent (ticks ++ [k]) c = measure percent k (Measure percent ticks c).
Proof. unfold Measure. by rewrite foldl_app. Qed.

Lemma cpuSamples_snoc (ticks : list Tick) (k : Tick) :
  cpuSamples (ticks ++ [k])
  = cpuSamples ticks ++ option_list ((λ st, (now k, st)) <$> get k).
Proof. unfold cpuSamples. rewrite omap_app. simpl. by destruct (get k). Qed.

Lemma withPrevious_snoc {A} (first : A) (samples : list (Z * A)) (s : Z * A) :
  withPrevious first (samples ++ [s])
  = withPrevious first samples ++ [(default first (last (snd <$> samples)), s)].
Proof.
  revert first. induction samples as [|a samples IH]; intros first; [done|].
  change (withPrevious first ((a :: samples) ++ [s]))
    with ((first, a) :: withPrevious a.2 (samples ++ [s])).
  rewrite IH.
  change (withPrevious first (a :: samples))
    with ((first, a) :: withPrevious a.2 samples).
  assert (default first (last ((a :: samples).*2)) = default a.2 (last samples.*2)) as ->.
  { destruct samples as [|b rest]; [done|].
    change (last ((a :: b :: rest).*2)) with (last ((b :: rest).*2)).
    assert (is_Some (last ((b :: rest).*2))) as [x Hx] by (by apply last_is_Some).
    by rewrite Hx. }
  done.
Qed.

End cpu_metric.

(** X9.  The CPU collector always remembers the last successful sample,
    and its store holds one DataPoint per successful sample, in order: the
    system and user shares of the step from the previous successful sample
    (for the first one, from what the collector remembered at the start),
    computed on wrap-around differences.  Nothing guards the division: a
    sample whose total equals the remembered total is written with the
    denominator 0. *)
Theorem cpu_store_holds_steps {F : Type} (percent : Z → Z → F)
    (ticks : list infrastructure.CPUMetric.Tick) (c : infrastructure.CPUMetric.t F) :
  let c' := infrastructure.CPUMetric.Measure percent ticks c in
  remembered c' = default (remembered c) (last (snd <$> cpuSamples ticks)) ∧
  (∃ points,
     metric.DataPoints (infrastructure.CPUMetric.Base c')
     = metric.DataPoints (infrastructure.CPUMetric.Base c) ++ points ∧
     Forall2 (holdsCPU percent) points (withPrevious (remembered c) (cpuSamples ticks))) ∧
  ∀ k cpu,
    infrastructure.CPUMetric.get k = Some cpu →
    infrastructure.CPUMetric.Total cpu = infrastructure.CPUMetric.total c →
    ∃ point,
      metric.DataPoints
        (infrastructure.CPUMetric.Base (infrastructure.CPUMetric.measure percent k c))
      = metric.DataPoints (infrastructure.CPUMetric.Base c) ++ [point] ∧
      metric.Values point !! "System"%string
      = Some (percent (sub64 (infrastructure.CPUMetric.System cpu)
                         (infrastructure.CPUMetric.prevSystem c)) 0).
Proof.
  intros c'. split; [|split].
  - subst c'. induction ticks as [|k ticks IH] using rev_ind; [done|].
    rewrite cpu_Measure_snoc, cpuSamples_snoc, fmap_app.
    unfold infrastructure.CPUMetric.measure.
    destruct (infrastructure.CPUMetric.get k) as [[u s t]|]; simpl.
    + by rewrite last_snoc.
    + by rewrite app_nil_r.
  - subst c'. induction ticks as [|k ticks IH] using rev_ind.
    + exists []. by rewrite app_nil_r.
    + destruct IH as (points & Hpoints & Hall).
      assert (remembered (infrastructure.CPUMetric.Measure percent ticks c)
              = default (remembered c) (last (snd <$> cpuSamples ticks))) as Hrem.
      { clear. induction ticks as [|k ticks IH] using rev_ind; [done|].
        rewrite cpu_Measure_snoc, cpuSamples_snoc, fmap_app.
        unfold infrastructure.CPUMetric.measure.
        destruct (infrastructure.CPUMetric.get k) as [[u s t]|]; simpl.
        - by rewrite last_snoc.
        - by rewrite app_nil_r. }
      rewrite cpu_Measure_snoc, cpuSamples_snoc.
      unfold infrastructure.CPUMetric.measure.
      destruct (infrastructure.CPUMetric.get k) as [cpu|]; simpl.
      * eexists (points ++ [_]). rewrite Hpoints, <- app_assoc. split; [reflexivity|].
        rewrite withPrevious_snoc. apply Forall2_app; [done|].
        constructor; [|constructor]. rewrite <- Hrem. repeat split.
      * rewrite app_nil_r. by exists points.
  - intros k cpu Hget Htotal. unfold infrastructure.CPUMetric.measure. rewrite Hget.
    eexists. split; [reflexivity|]. simpl. rewrite Htotal.
    unfold sub64 at 2. by rewrite Z.sub_diag.
Qed.

(** ** The stand-alone monitor *)

Section monitor_cpu.
Context {F : Type} (percent : Z → Z → F).

Lemma monitorCPU_snoc (samples : list (option infrastructure.CPUMetric.Stats))
    (sample : option infrastructure.CPUMetric.Stats) (g : monitor.globals F) :
  monitor.monitorCPU percent (samples ++ [sample]) g
  = monitor.collectCPUUsage percent sample (monitor.monitorCPU percent samples g).
Proof. unfold monitor.monitorCPU. by rewrite foldl_app. Qed.

Lemma collectCPUUsage_gaugesSound (sample : option infrastructure.CPUMetric.Stats)
    (g : monitor.globals F) :
  gaugesSound percent g → gaugesSound percent (monitor.collectCPUUsage percent sample g).
Proof.
  intros Hg. unfold monitor.collectCPUUsage. destruct sample as [cpuStat|]; [|done].
  destruct (0 <? monitor.prevTotal g); [|exact Hg].
  destruct (Z.ltb_spec 0 (sub64 (infrastructure.CPUMetric.Total cpuStat)
                            (monitor.prevTotal g))) as [Hpos|_]; [|exact Hg].
  right. eexists _, _, _. split; [|split; reflexivity]. split; [done|].
  unfold sub64. apply Z.mod_pos_bound. lia.
Qed.

End monitor_cpu.

(** X10.  [collectCPUUsage] never divides by zero and never reports on a
    single sample.  After any run from the initial state, the remembered
    sample is the last successful one; the gauges were either never set or
    hold shares computed with a positive denominator; and as long as at
    most one sample succeeded they were never set. *)
Theorem collectCPUUsage_guards_division {F : Type} (percent : Z → Z → F)
    (samples : list (option infrastructure.CPUMetric.Stats)) :
  let g := monitor.monitorCPU percent samples monitor.initially in
  infrastructure.CPUMetric.mkStats (monitor.prevUser g) (monitor.prevSystem g)
    (monitor.prevTotal g)
  = default (infrastructure.CPUMetric.mkStats 0 0 0) (last (omap id samples)) ∧
  gaugesSound percent g ∧
  ((length (omap id samples) ≤ 1)%nat →
   monitor.cpuUser g = None ∧ monitor.cpuSystem g = None).
Proof.
  induction samples as [|sample samples IH] using rev_ind.
  - simpl. split; [done|]. split; [by left | done].
  - cbv zeta in *. rewrite monitorCPU_snoc, omap_app.
    destruct IH as (Hprev & Hsound & Hfew).
    split; [|split].
    + destruct sample as [[u s t]|]; simpl; [by rewrite last_snoc | by rewrite app_nil_r].
    + by apply collectCPUUsage_gaugesSound.
    + destruct sample as [cpuStat|]; simpl.
      * rewrite length_app. simpl. intros Hone.
        assert (omap id samples = []) as Hnone.
        { destruct (omap id samples); [done | simpl in Hone; lia]. }
        rewrite Hnone in Hprev, Hfew. simpl in Hprev.
        injection Hprev as _ _ ->. simpl. apply Hfew. simpl. lia.
      * by rewrite app_nil_r.
Qed.

(** ** The benchmark configuration *)

Section validate.
Context (sanitizeURL : string → string * option string)
        (network_Validate : string → option string).

Ltac validate_rewrite :=
  repeat (cbn;
          match goal with
          | H : sanitizeURL _ = _ |- _ => rewrite H
          | H : network_Validate _ = _ |- _ => rewrite H
          | H : orb _ _ = _ |- _ => rewrite H
          end);
  cbn.

(** The case analysis follows [Validate]: a stage is looked at only when
    no earlier one failed. *)
Ltac validate_unless_failed tac :=
  lazymatch goal with
  | _ : sanitizeURL _ = (_, Some _) |- _ => idtac
  | _ => tac
  end.

Ltac validate_cases b :=
  destruct b as [[beaconAddress beaconMetrics] [executionAddress executionMetrics]
                 [validatorAddress validatorMetrics] infra server duration network];
  unfold configs.Validate, failure, rewritten, needed, subject, sameSettings;
  cbn;
  destruct (configs.Enabled (configs.BeaconMetrics.Peers beaconMetrics) ||
            configs.Enabled (configs.BeaconMetrics.Attestation beaconMetrics) ||
            configs.Enabled (configs.BeaconMetrics.Client beaconMetrics) ||
            configs.Enabled (configs.BeaconMetrics.Latency beaconMetrics) ||
            configs.Enabled (configs.BeaconMetrics.SyncStatus beaconMetrics))
    eqn:HbeaconNeeded;
  [destruct (sanitizeURL beaconAddress) as [beaconURL [beaconErr|]] eqn:Hbeacon|];
  validate_rewrite;
  validate_unless_failed ltac:(
    destruct (configs.Enabled (configs.ExecutionMetrics.Peers executionMetrics) ||
              configs.Enabled (configs.ExecutionMetrics.Latency executionMetrics))
      eqn:HexecutionNeeded;
    [destruct (sanitizeURL executionAddress) as [executionURL [executionErr|]]
       eqn:Hexecution|];
    validate_rewrite;
    validate_unless_failed ltac:(
      destruct (configs.Enabled (configs.ValidatorMetrics.Proposals validatorMetrics) ||
                configs.Enabled (configs.ValidatorMetrics.Attestations validatorMetrics) ||
                configs.Enabled (configs.ValidatorMetrics.Duties validatorMetrics))
        eqn:HvalidatorNeeded;
      [destruct (sanitizeURL validatorAddress) as [validatorURL [validatorErr|]]
         eqn:Hvalidator|];
      validate_rewrite;
      validate_unless_failed ltac:(
        destruct (network_Validate network) as [networkErr|] eqn:Hnetwork;
        validate_rewrite))).

Ltac validate_at Hall c :=
  specialize (Hall c); revert Hall; validate_rewrite; intros Hall.

Ltac validate_earlier Hearlier c :=
  let H := fresh in
  assert (H := Hearlier c ltac:(cbn; lia));
  revert H; validate_rewrite; intros H.

Ltac validate_all c :=
  destruct c; validate_rewrite.

(** X11.  [Validate] accepts exactly the configurations on which every
    check it makes passes, and it returns an error exactly when it rejects.
    On acceptance the address of every node with an enabled metric has been
    replaced by its sanitised form and the other addresses are as they
    were.  Accepting or not, it leaves every other setting alone. *)
Theorem Validate_accepts_iff_checks_pass (b : configs.Benchmark) :
  let b' := (configs.Validate sanitizeURL network_Validate b).1 in
  let ok := (configs.Validate sanitizeURL network_Validate b).2.1 in
  let err := (configs.Validate sanitizeURL network_Validate b).2.2 in
  (ok = true ↔ ∀ c, failure sanitizeURL network_Validate c b = None) ∧
  (ok = true ↔ err = None) ∧
  (ok = true → ∀ c, subject c b' = rewritten sanitizeURL c b) ∧
  sameSettings b b'.
Proof.
  validate_cases b; (split; [split|split; [|split]]); try done;
    try (by (intros _ c; validate_all c));
    intros Hall;
    first [ by validate_at Hall BeaconAddress
          | by validate_at Hall ExecutionAddress
          | by validate_at Hall ValidatorAddress
          | by validate_at Hall NetworkName ].
Qed.

(** X12.  [Validate] stops at the first check that fails, in the order
    beacon node, execution node, validator client, network name: it returns
    [false] with that check's error joined to that check's message.  The
    receiver is then left half-validated: every address checked before the
    failure has already been replaced by its sanitised form, the address
    that failed and those after it are as they were. *)
Theorem Validate_stops_at_first_failure (b : configs.Benchmark) (c : check)
    (e : string)
    (Hfails : failure sanitizeURL network_Validate c b = Some e)
    (Hfirst : ∀ c', (rank c' < rank c)%nat → failure sanitizeURL network_Validate c' b = None) :
  let b' := (configs.Validate sanitizeURL network_Validate b).1 in
  (configs.Validate sanitizeURL network_Validate b).2 = (false, Some (errors_Join e (message c))) ∧
  ∀ c', subject c' b' = if decide (rank c' < rank c)%nat then rewritten sanitizeURL c' b
                        else subject c' b.
Proof.
  cbv zeta. revert Hfails Hfirst.
  destruct c; validate_cases b;
    intros Hfails Hearlier; try done;
    try (by (validate_earlier Hearlier BeaconAddress));
    try (by (validate_earlier Hearlier ExecutionAddress));
    try (by (validate_earlier Hearlier ValidatorAddress));
    injection Hfails as <-;
    (split; [done | by (intros c'; validate_all c')]).
Qed.

End validate.

Lemma Validate_stops_at_first_failure_witness :
  let b' := (configs.Validate schemeAdder anyNetwork halfConfigured).1 in
  (configs.Validate schemeAdder anyNetwork halfConfigured).2
  = (false, Some (errors_Join "empty address" (message ExecutionAddress))) ∧
  ∀ c', subject c' b'
        = if decide (rank c' < rank ExecutionAddress)%nat
          then rewritten schemeAdder c' halfConfigured
          else subject c' halfConfigured.
Proof.
  apply (Validate_stops_at_first_failure schemeAdder anyNetwork halfConfigured
           ExecutionAddress "empty address").
  - reflexivity.
  - intros [] Hlt; cbn in Hlt; try lia. reflexivity.
Defined.

(** ** What the execution peer collector does not survive *)

Lemma execution_peers_loop_panics (ticks : list execution.PeerMetric.Tick)
    (p : execution.PeerMetric.t) :
  (∃ msg, execution.PeerMetric.loop ticks p = Panic msg)
  ↔ ∃ k, k ∈ ticks ∧ crashes k.
Proof.
  revert p. induction ticks as [|k ticks IH]; intros p; simpl.
  - split; [by intros [msg Hmsg] | intros (k & Hk & _); by apply elem_of_nil in Hk].
  - destruct (execution.PeerMetric.measure k p) as [[p1 probes1]|msg1] eqn:Hk; simpl.
    + assert (¬ crashes k) as Hfine.
      { intros Hcrash. apply (execution_peers_measure_panics k p) in Hcrash as [msg Hmsg].
        congruence. }
      specialize (IH p1).
      destruct (execution.PeerMetric.loop ticks p1) as [[p2 probes2]|msg2]; simpl.
      * split; [by intros [msg Hmsg]|].
        intros (k' & [->|Hk']%elem_of_cons & Hcrash); [done|].
        destruct (proj2 IH) as [msg Hmsg]; [by exists k' | done].
      * split; [|by eexists]. intros _.
        destruct (proj1 IH) as (k' & Hk' & Hcrash); [by eexists|].
        exists k'. split; [by right | done].
    + split; [|by eexists]. intros _. exists k. split; [by left|].
      apply (execution_peers_measure_panics k p). by eexists.
Qed.

(** X13.  A run of the execution peer collector panics exactly when its
    interval is not positive ([time.NewTicker] refuses it before any tick),
    when one of its ticks fails to build its request (the header is set on
    the nil request before the error is looked at), or when one gets a 200
    answer whose result is one character long (the slice [2:] is out of
    bounds).  Every other failure, the empty result included, lets the
    loop go on. *)
Theorem execution_peers_Measure_panics_iff (ticks : list execution.PeerMetric.Tick)
    (p : execution.PeerMetric.t) :
  (∃ msg, execution.PeerMetric.Measure ticks p = Panic msg)
  ↔ execution.PeerMetric.interval p ≤ 0 ∨ ∃ k, k ∈ ticks ∧ crashes k.
Proof.
  unfold execution.PeerMetric.Measure.
  destruct (Z.leb_spec (execution.PeerMetric.interval p) 0) as [Hle|Hpos].
  - split; [by left | by eexists].
  - rewrite execution_peers_loop_panics. split; [by right | intros [|]; [lia | done]].
Qed.
